(** * Mesnada orchestration kernel: a shallow embedding in Rocq

    This development embeds the task model of [pkg/models], the file store
    of [internal/store], the orchestrator of [internal/orchestrator]
    ([canStart], [processDependentTasks], [Spawn], [Wait], [Cancel],
    [Pause], [Resume], [Delete], [Purge], [SetProgress]), the reaper and
    stop operations of the four engine spawners of [internal/agent], and the
    argument handling of the tool handlers in [internal/server/tools.go].

    Go's [*models.Task] values are modelled as records; the in-memory map
    [map[string]*models.Task] of the [FileStore] is a [gmap string Task].
    Clock readings ([time.Now()]) are passed in explicitly as integers, and
    the random id of [generateID] is passed in as an argument. *)

From Stdlib Require Import ZArith Ascii Lia.
From stdpp Require Import base gmap strings list sorting.

Open Scope Z_scope.

(* ------------------------------------------------------------------ *)
(** ** Data model ([pkg/models]) *)

Inductive TaskStatus :=
| TaskStatusPending
| TaskStatusRunning
| TaskStatusPaused
| TaskStatusCompleted
| TaskStatusFailed
| TaskStatusCancelled.

#[global] Instance TaskStatus_eq_dec : EqDecision TaskStatus.
Proof. solve_decision. Defined.

(** Go's [==] on [TaskStatus]. *)
Definition TaskStatus_eqb (a b : TaskStatus) : bool :=
  match a, b with
  | TaskStatusPending, TaskStatusPending
  | TaskStatusRunning, TaskStatusRunning
  | TaskStatusPaused, TaskStatusPaused
  | TaskStatusCompleted, TaskStatusCompleted
  | TaskStatusFailed, TaskStatusFailed
  | TaskStatusCancelled, TaskStatusCancelled => true
  | _, _ => false
  end.

(** [TaskProgress]. [UpdatedAt] is a clock reading. *)
Record TaskProgress := mkTaskProgress {
  Percentage : Z;
  Description : string;
  UpdatedAt : Z
}.

(** [Task]: every field of the Go struct. Pointers to optional values
    ([*int], [*time.Time], [*TaskProgress]) are options; [Duration] is a
    number of nanoseconds. *)
Record Task := mkTask {
  ID : string;
  Prompt : string;
  WorkDir : string;
  Status : TaskStatus;
  Engine : string;
  PID : Z;
  Output : string;
  OutputTail : string;
  Error : string;
  ExitCode : option Z;
  Model : string;
  LogFile : string;
  Progress : option TaskProgress;
  CreatedAt : Z;
  StartedAt : option Z;
  CompletedAt : option Z;
  Dependencies : list string;
  Tags : list string;
  Priority : Z;
  Timeout : Z;
  MCPConfig : string;
  ExtraArgs : list string
}.

(** Field assignments [task.F = v] used by the code. *)
Definition set_Status (t : Task) (s : TaskStatus) : Task :=
  {| ID := ID t; Prompt := Prompt t; WorkDir := WorkDir t; Status := s;
     Engine := Engine t; PID := PID t; Output := Output t;
     OutputTail := OutputTail t; Error := Error t; ExitCode := ExitCode t;
     Model := Model t; LogFile := LogFile t; Progress := Progress t;
     CreatedAt := CreatedAt t; StartedAt := StartedAt t;
     CompletedAt := CompletedAt t; Dependencies := Dependencies t;
     Tags := Tags t; Priority := Priority t; Timeout := Timeout t;
     MCPConfig := MCPConfig t; ExtraArgs := ExtraArgs t |}.

Definition set_Error (t : Task) (e : string) : Task :=
  {| ID := ID t; Prompt := Prompt t; WorkDir := WorkDir t; Status := Status t;
     Engine := Engine t; PID := PID t; Output := Output t;
     OutputTail := OutputTail t; Error := e; ExitCode := ExitCode t;
     Model := Model t; LogFile := LogFile t; Progress := Progress t;
     CreatedAt := CreatedAt t; StartedAt := StartedAt t;
     CompletedAt := CompletedAt t; Dependencies := Dependencies t;
     Tags := Tags t; Priority := Priority t; Timeout := Timeout t;
     MCPConfig := MCPConfig t; ExtraArgs := ExtraArgs t |}.

Definition set_ExitCode (t : Task) (c : option Z) : Task :=
  {| ID := ID t; Prompt := Prompt t; WorkDir := WorkDir t; Status := Status t;
     Engine := Engine t; PID := PID t; Output := Output t;
     OutputTail := OutputTail t; Error := Error t; ExitCode := c;
     Model := Model t; LogFile := LogFile t; Progress := Progress t;
     CreatedAt := CreatedAt t; StartedAt := StartedAt t;
     CompletedAt := CompletedAt t; Dependencies := Dependencies t;
     Tags := Tags t; Priority := Priority t; Timeout := Timeout t;
     MCPConfig := MCPConfig t; ExtraArgs := ExtraArgs t |}.

Definition set_CompletedAt (t : Task) (c : option Z) : Task :=
  {| ID := ID t; Prompt := Prompt t; WorkDir := WorkDir t; Status := Status t;
     Engine := Engine t; PID := PID t; Output := Output t;
     OutputTail := OutputTail t; Error := Error t; ExitCode := ExitCode t;
     Model := Model t; LogFile := LogFile t; Progress := Progress t;
     CreatedAt := CreatedAt t; StartedAt := StartedAt t;
     CompletedAt := c; Dependencies := Dependencies t;
     Tags := Tags t; Priority := Priority t; Timeout := Timeout t;
     MCPConfig := MCPConfig t; ExtraArgs := ExtraArgs t |}.

Definition set_Outputs (t : Task) (out tail : string) : Task :=
  {| ID := ID t; Prompt := Prompt t; WorkDir := WorkDir t; Status := Status t;
     Engine := Engine t; PID := PID t; Output := out;
     OutputTail := tail; Error := Error t; ExitCode := ExitCode t;
     Model := Model t; LogFile := LogFile t; Progress := Progress t;
     CreatedAt := CreatedAt t; StartedAt := StartedAt t;
     CompletedAt := CompletedAt t; Dependencies := Dependencies t;
     Tags := Tags t; Priority := Priority t; Timeout := Timeout t;
     MCPConfig := MCPConfig t; ExtraArgs := ExtraArgs t |}.

Definition set_Progress (t : Task) (p : option TaskProgress) : Task :=
  {| ID := ID t; Prompt := Prompt t; WorkDir := WorkDir t; Status := Status t;
     Engine := Engine t; PID := PID t; Output := Output t;
     OutputTail := OutputTail t; Error := Error t; ExitCode := ExitCode t;
     Model := Model t; LogFile := LogFile t; Progress := p;
     CreatedAt := CreatedAt t; StartedAt := StartedAt t;
     CompletedAt := CompletedAt t; Dependencies := Dependencies t;
     Tags := Tags t; Priority := Priority t; Timeout := Timeout t;
     MCPConfig := MCPConfig t; ExtraArgs := ExtraArgs t |}.

(** [Task.IsTerminal]. *)
Definition IsTerminal (t : Task) : bool :=
  match Status t with
  | TaskStatusCompleted | TaskStatusFailed
  | TaskStatusCancelled | TaskStatusPaused => true
  | _ => false
  end.

(* ------------------------------------------------------------------ *)
(** ** The file store ([FileStore]) *)

(** The in-memory map of the store. *)
Abbreviation Store := (gmap string Task).

(** Go [error] values are modelled by their message. *)
Inductive Result (A : Type) :=
| Ok (a : A)
| Err (msg : string).
Arguments Ok {A} a.
Arguments Err {A} msg.

Definition not_found_msg (id : string) : string := "task not found: " +:+ id.

(** [FileStore.Get]. *)
Definition store_Get (st : Store) (id : string) : Result Task :=
  match st !! id with
  | Some t => Ok t
  | None => Err (not_found_msg id)
  end.

(** [FileStore.Save]: [fs.tasks[task.ID] = task]; it always returns nil. *)
Definition store_Save (st : Store) (t : Task) : Store := <[ID t := t]> st.

(** [FileStore.Delete]. *)
Definition store_Delete (st : Store) (id : string) : Result Store :=
  match st !! id with
  | Some _ => Ok (delete id st)
  | None => Err (not_found_msg id)
  end.

(** [FileStore.List] with a status filter only (the form used by
    [processDependentTasks]). The newest-first sort of the code only
    reorders the result; the scheduler visits every listed task. *)
Definition store_List_status (st : Store) (s : TaskStatus) : list Task :=
  filter (fun t => Status t = s) (map snd (map_to_list st)).

(* ------------------------------------------------------------------ *)
(** ** Dependency scheduling ([canStart], [processDependentTasks]) *)

(** The loop of [canStart] over [task.Dependencies]. *)
Fixpoint canStart_deps (st : Store) (deps : list string) : bool :=
  match deps with
  | [] => true
  | depID :: rest =>
      match store_Get st depID with
      | Err _ => false
      | Ok dep =>
          if decide (Status dep = TaskStatusCompleted)
          then canStart_deps st rest else false
      end
  end.

(** [canStart]. *)
Definition canStart (st : Store) (t : Task) : bool :=
  match Dependencies t with
  | [] => true
  | _ => canStart_deps st (Dependencies t)
  end.

(** [processDependentTasks]: the tasks it hands to [startTask]. *)
Definition processDependentTasks (st : Store) (completed : Task) : list Task :=
  if decide (Status completed = TaskStatusCompleted)
  then filter (fun t => canStart st t = true)
         (store_List_status st TaskStatusPending)
  else [].

(** The two places where the orchestrator calls [startTask], the only
    path by which a pending task is handed to an adapter and becomes
    [running]: at the end of [Spawn] (with the new task already saved) and
    in the completion fan-out [onTaskComplete] -> [processDependentTasks]. *)
Inductive SchedEvent :=
| EvSpawned (t : Task)
| EvCompleted (c : Task).

Definition started_by (st : Store) (ev : SchedEvent) : list Task :=
  match ev with
  | EvSpawned t => if canStart st t then [t] else []
  | EvCompleted c => processDependentTasks st c
  end.

(** A dependency id resolves to a completed task. *)
Definition dep_completed (st : Store) (d : string) : Prop :=
  exists dep, st !! d = Some dep /\ Status dep = TaskStatusCompleted.

(* ------------------------------------------------------------------ *)
(** ** Engine spawners: reaping ([waitForCompletion]) and stopping *)

(** [strings.Split(s, "\n")]. *)
Fixpoint split_nl (s : string) : list string :=
  match s with
  | EmptyString => [EmptyString]
  | String c rest =>
      if decide (c = "010"%char) then EmptyString :: split_nl rest
      else match split_nl rest with
           | x :: xs => String c x :: xs
           | [] => [String c EmptyString]
           end
  end.

(** [strings.Join(l, "\n")]. *)
Fixpoint join_nl (l : list string) : string :=
  match l with
  | [] => EmptyString
  | [x] => x
  | x :: xs => x +:+ String "010"%char EmptyString +:+ join_nl xs
  end.

(** [getTail], identical in the four spawners. *)
Definition getTail (output : string) (lines : nat) : string :=
  let allLines := split_nl output in
  if decide (length allLines <= lines)%nat then output
  else join_nl (drop (length allLines - lines) allLines).

Definition outputTailLines : nat := 50.

(** The error returned by [proc.cmd.Wait()]: an [*exec.ExitError] (the
    child exited with a non-zero status or on a signal) with its
    [ExitCode()] and [Error()] text, or any other error. [None] is nil. *)
Inductive WaitErr :=
| ExitError (code : Z) (msg : string)
| OtherWaitError (msg : string).

Definition WaitErr_Error (e : WaitErr) : string :=
  match e with ExitError _ m => m | OtherWaitError m => m end.

(** The body of [waitForCompletion] after [proc.cmd.Wait()] returned
    [err], up to the removal from the live map and the call of
    [onComplete]; it is the same in the copilot, claude, gemini and
    opencode spawners. [now] is the clock reading and [output] the
    captured in-memory output. *)
Definition waitForCompletion (t : Task) (err : option WaitErr)
    (now : Z) (output : string) : Task :=
  let t := set_CompletedAt t (Some now) in
  let t := set_Outputs t output (getTail output outputTailLines) in
  let explicitStop :=
    TaskStatus_eqb (Status t) TaskStatusCancelled ||
    TaskStatus_eqb (Status t) TaskStatusPaused in
  match err with
  | Some e =>
      if explicitStop then
        match e with
        | ExitError code _ => set_ExitCode t (Some code)
        | OtherWaitError _ => t
        end
      else
        let t := set_Error (set_Status t TaskStatusFailed) (WaitErr_Error e) in
        match e with
        | ExitError code _ => set_ExitCode t (Some code)
        | OtherWaitError _ => t
        end
  | None =>
      let t := if explicitStop then t else set_Status t TaskStatusCompleted in
      set_ExitCode t (Some 0)
  end.

(** The steps of the spawners' [Cancel] and [Pause] once the process is
    found in the live map: [proc.cancel()], then, when
    [proc.cmd.Process != nil], SIGTERM followed by either the receive on
    [proc.done] (the child exited within 5 s) or [Kill()], and finally the
    assignment [proc.task.Status = target]. *)
Inductive StopStep :=
| CancelContext
| SendSIGTERM
| AwaitDone
| ForceKill
| SetTaskStatus (s : TaskStatus).

#[global] Instance StopStep_eq_dec : EqDecision StopStep.
Proof. solve_decision. Defined.

Definition spawner_stop (target : TaskStatus) (has_process exited_in_5s : bool)
    : list StopStep :=
  [CancelContext] ++
  (if has_process
   then SendSIGTERM :: (if exited_in_5s then [AwaitDone] else [ForceKill])
   else []) ++
  [SetTaskStatus target].

(** [Spawner.Cancel] and [Spawner.Pause] (all four engines). *)
Definition spawner_Cancel := spawner_stop TaskStatusCancelled.
Definition spawner_Pause := spawner_stop TaskStatusPaused.

(** Running the stop steps against the shared task record. The receive
    on [proc.done] returns only once [waitForCompletion] has run to its end
    ([close(proc.done)] is deferred), so at [AwaitDone] the reaper has run
    on the record as it is at that point; the killed child's [Wait] error
    is [err]. The second component is the record the reaper handed to
    [onComplete]. *)
Fixpoint run_stop (steps : list StopStep) (t : Task) (reaped : option Task)
    (err : option WaitErr) (now : Z) (output : string) : Task * option Task :=
  match steps with
  | [] => (t, reaped)
  | AwaitDone :: rest =>
      let t' := waitForCompletion t err now output in
      run_stop rest t' (Some t') err now output
  | SetTaskStatus s :: rest => run_stop rest (set_Status t s) reaped err now output
  | _ :: rest => run_stop rest t reaped err now output
  end.

(** Position of the first occurrence of a step. *)
Fixpoint step_index (x : StopStep) (l : list StopStep) : option nat :=
  match l with
  | [] => None
  | y :: ys =>
      if decide (y = x) then Some 0%nat
      else option_map S (step_index x ys)
  end.

(* ------------------------------------------------------------------ *)
(** ** Engines ([models.Engine], [Manager], [toolSpawnAgent]) *)

(** The engine constants. [EngineCopilot] and [EngineClaude] are declared
    in [pkg/models]; [Manager] also switches on [EngineGemini] and
    [EngineOpenCode], the [gemini] and [opencode] engines. *)
Definition EngineCopilot : string := "copilot".
Definition EngineClaude : string := "claude".
Definition EngineGemini : string := "gemini".
Definition EngineOpenCode : string := "opencode".

(** [models.ValidEngine]. *)
Definition ValidEngine (e : string) : bool :=
  String.eqb e EngineCopilot || String.eqb e EngineClaude || String.eqb e "".

(** [models.DefaultEngine]. *)
Definition DefaultEngine : string := EngineCopilot.

(** The spawner a task is handed to. *)
Inductive Adapter :=
| CopilotSpawner
| ClaudeSpawner
| GeminiSpawner
| OpenCodeSpawner.

(** The engine switch of [Manager.Spawn]. *)
Definition manager_adapter (engine : string) : Adapter :=
  let engine := if String.eqb engine "" then DefaultEngine else engine in
  if String.eqb engine EngineClaude then ClaudeSpawner
  else if String.eqb engine EngineGemini then GeminiSpawner
  else if String.eqb engine EngineOpenCode then OpenCodeSpawner
  else CopilotSpawner.

(** The engine validation of [toolSpawnAgent]: the engine the request goes
    on with, or the error returned before any task is created. *)
Definition toolSpawnAgent_engine (req_engine default_engine : string)
    : Result string :=
  if negb (String.eqb req_engine "") && negb (ValidEngine req_engine)
  then Err ("invalid engine: " +:+ req_engine +:+
            " (valid: copilot, claude, gemini, opencode)")
  else Ok (if String.eqb req_engine "" then default_engine else req_engine).

(* ------------------------------------------------------------------ *)
(** ** Progress ([toolSetProgress], [Orchestrator.SetProgress]) *)

(** The decoded [percentage] argument ([interface{}]). A JSON number
    decodes to a [float64], an exact dyadic rational, written here
    [num / den]; [int(v)] truncates toward zero when the result fits an
    [int] (see [int_of_float] for other values). [JInt] is the [case int] branch; [JOther] is any other
    dynamic type (bool, nil, array, object) named by its [%T] text. *)
Inductive JsonValue :=
| JNumber (num : Z) (den : positive)
| JInt (z : Z)
| JString (s : string)
| JOther (type_name : string).

Definition is_digit (ch : ascii) : bool :=
  (48 <=? nat_of_ascii ch)%nat && (nat_of_ascii ch <=? 57)%nat.

Definition digit_value (ch : ascii) : Z := Z.of_nat (nat_of_ascii ch) - 48.

(** The sanitising loop of [toolSetProgress]. The code ranges over runes;
    every byte of a multi-byte UTF-8 rune is at least 0x80, so it is
    neither a digit nor a minus sign and scanning bytes keeps the same
    characters. *)
Fixpoint sanitize_from (v : string) (sanitized : string) : string :=
  match v with
  | EmptyString => sanitized
  | String ch rest =>
      if is_digit ch ||
         (Ascii.eqb ch "-"%char && String.eqb sanitized "")
      then sanitize_from rest (sanitized +:+ String ch EmptyString)
      else sanitize_from rest sanitized
  end.

(** The digit loop of [fmt]'s [scanNumber] with the value [ParseInt]
    computes from it: the value and the number of digits read. *)
Fixpoint scan_digits (s : string) (acc : Z) (n : nat) : Z * nat :=
  match s with
  | String c rest =>
      if is_digit c then scan_digits rest (10 * acc + digit_value c) (S n)
      else (acc, n)
  | EmptyString => (acc, n)
  end.

Definition min_int64 : Z := - 2 ^ 63.
Definition max_int64 : Z := 2 ^ 63 - 1.

(** [fmt.Sscanf(s, "%d", &percentage)] into a 64-bit [int]: an optional
    sign, at least one decimal digit, and a value within the range of
    [int]; [None] when it returns an error, in which case [percentage] is
    not assigned. *)
Definition Sscanf_d (s : string) : option Z :=
  let '(neg, rest) :=
    match s with
    | String c r =>
        if Ascii.eqb c "-"%char then (true, r)
        else if Ascii.eqb c "+"%char then (false, r)
        else (false, s)
    | EmptyString => (false, s)
    end in
  let '(v, n) := scan_digits rest 0 0 in
  if (n =? 0)%nat then None
  else
    let z := if neg then - v else v in
    if (min_int64 <=? z) && (z <=? max_int64) then Some z else None.

(** [int(v)] of a [float64] [v = num / den] on amd64: the value truncated
    toward zero when it fits a 64-bit [int]; otherwise (Go leaves that
    case to the implementation) the conversion instruction gives its
    "integer indefinite" value, [min_int64]. *)
Definition int_of_float (num : Z) (den : positive) : Z :=
  let q := Z.quot num (Zpos den) in
  if (min_int64 <=? q) && (q <=? max_int64) then q else min_int64.

(** The [switch] of [toolSetProgress] on the dynamic type. *)
Definition coerce_percentage (p : JsonValue) : Result Z :=
  match p with
  | JNumber num den => Ok (int_of_float num den)
  | JInt z => Ok z
  | JString v =>
      let sanitized := sanitize_from v "" in
      Ok (if String.eqb sanitized "" then 0
          else match Sscanf_d sanitized with Some z => z | None => 0 end)
  | JOther ty => Err ("invalid percentage type: " +:+ ty)
  end.

(** [Orchestrator.SetProgress]; [now] is [time.Now()]. *)
Definition SetProgress (st : Store) (taskID : string) (percentage : Z)
    (description : string) (now : Z) : Store * Result unit :=
  match store_Get st taskID with
  | Err m => (st, Err m)
  | Ok t =>
      let percentage := if percentage <? 0 then 0 else percentage in
      let percentage := if percentage >? 100 then 100 else percentage in
      let t := set_Progress t (Some (mkTaskProgress percentage description now)) in
      (store_Save st t, Ok tt)
  end.

(** [toolSetProgress]: the store after the call and the [percentage] it
    reports. *)
Definition toolSetProgress (st : Store) (taskID : string) (p : JsonValue)
    (description : string) (now : Z) : Store * Result Z :=
  match coerce_percentage p with
  | Err m => (st, Err m)
  | Ok percentage =>
      match SetProgress st taskID percentage description now with
      | (st', Err m) => (st', Err m)
      | (st', Ok _) => (st', Ok percentage)
      end
  end.

(* ------------------------------------------------------------------ *)
(** ** Orchestrator operations on the store *)

(** [%s] of a [TaskStatus]. *)
Definition TaskStatus_String (s : TaskStatus) : string :=
  match s with
  | TaskStatusPending => "pending"
  | TaskStatusRunning => "running"
  | TaskStatusPaused => "paused"
  | TaskStatusCompleted => "completed"
  | TaskStatusFailed => "failed"
  | TaskStatusCancelled => "cancelled"
  end.

(** [strings.Contains]. *)
Definition strings_Contains (s substr : string) : bool :=
  match String.index 0 substr s with Some _ => true | None => false end.

(** [asciiSpace] of package [strings]: the ASCII white space bytes. *)
Definition is_space (c : ascii) : bool :=
  match nat_of_ascii c with
  | 9 | 10 | 11 | 12 | 13 | 32 => true
  | _ => false
  end%nat.

Fixpoint trim_left (l : list ascii) : list ascii :=
  match l with
  | c :: r => if is_space c then trim_left r else l
  | [] => []
  end.

(** A byte of a Go string, read as a number. *)
Definition byte_val (c : ascii) : Z := Z.of_nat (nat_of_ascii c).

Definition RuneError : Z := 65533.
Definition RuneSelf : Z := 128.

(** The [first] and [acceptRanges] tables of [unicode/utf8]: for the first
    byte of a multi-byte sequence, its length and the range the second
    byte must fall in; [None] for the bytes the table marks [xx]. *)
Definition utf8_first (b : Z) : option (nat * Z * Z) :=
  if b <? 194 then None
  else if b <=? 223 then Some (2%nat, 128, 191)
  else if b =? 224 then Some (3%nat, 160, 191)
  else if b <=? 236 then Some (3%nat, 128, 191)
  else if b =? 237 then Some (3%nat, 128, 159)
  else if b <=? 239 then Some (3%nat, 128, 191)
  else if b =? 240 then Some (4%nat, 144, 191)
  else if b <=? 243 then Some (4%nat, 128, 191)
  else if b =? 244 then Some (4%nat, 128, 143)
  else None.

(** [utf8.DecodeRuneInString]: the first rune and its width; an invalid
    encoding gives [RuneError] of width 1. *)
Definition DecodeRune (s : list ascii) : Z * nat :=
  match s with
  | [] => (RuneError, 0%nat)
  | s0 :: r0 =>
      let b0 := byte_val s0 in
      if b0 <? RuneSelf then (b0, 1%nat) else
      match utf8_first b0 with
      | None => (RuneError, 1%nat)
      | Some (sz, lo, hi) =>
          if (length s <? sz)%nat then (RuneError, 1%nat) else
          match r0 with
          | [] => (RuneError, 1%nat)
          | s1 :: r1 =>
              let b1 := byte_val s1 in
              if (b1 <? lo) || (hi <? b1) then (RuneError, 1%nat)
              else if (sz <=? 2)%nat then
                (Z.lor (Z.shiftl (Z.land b0 31) 6) (Z.land b1 63), 2%nat)
              else
              match r1 with
              | [] => (RuneError, 1%nat)
              | s2 :: r2 =>
                  let b2 := byte_val s2 in
                  if (b2 <? 128) || (191 <? b2) then (RuneError, 1%nat)
                  else if (sz <=? 3)%nat then
                    (Z.lor (Z.lor (Z.shiftl (Z.land b0 15) 12)
                                  (Z.shiftl (Z.land b1 63) 6)) (Z.land b2 63), 3%nat)
                  else
                  match r2 with
                  | [] => (RuneError, 1%nat)
                  | s3 :: _ =>
                      let b3 := byte_val s3 in
                      if (b3 <? 128) || (191 <? b3) then (RuneError, 1%nat)
                      else (Z.lor (Z.lor (Z.lor (Z.shiftl (Z.land b0 7) 18)
                                                (Z.shiftl (Z.land b1 63) 12))
                                         (Z.shiftl (Z.land b2 63) 6)) (Z.land b3 63),
                            4%nat)
                  end
              end
          end
      end
  end.

(** [utf8.RuneStart]. *)
Definition RuneStart (c : ascii) : bool := negb (Z.land (byte_val c) 192 =? 128).

(** The backward loop of [utf8.DecodeLastRuneInString]:
    [for start--; start >= lim; start-- { if RuneStart(s[start]) break }],
    entered with [start] already decremented. As [lim >= end - 4] it runs
    at most three times, so four steps of fuel are enough. *)
Fixpoint scan_back (s : list ascii) (start lim : Z) (fuel : nat) : Z :=
  match fuel with
  | O => start
  | S f =>
      if start <? lim then start else
      match nth_error s (Z.to_nat start) with
      | Some c => if RuneStart c then start else scan_back s (start - 1) lim f
      | None => start
      end
  end.

(** [utf8.DecodeLastRuneInString]: the last rune and its width. *)
Definition DecodeLastRune (s : list ascii) : Z * nat :=
  let end_ := Z.of_nat (length s) in
  match nth_error s (Z.to_nat (end_ - 1)) with
  | None => (RuneError, 0%nat)
  | Some c =>
      if byte_val c <? RuneSelf then (byte_val c, 1%nat) else
      let lim := Z.max 0 (end_ - 4) in
      let start := Z.max 0 (scan_back s (end_ - 2) lim 4) in
      let '(r, size) := DecodeRune (drop (Z.to_nat start) s) in
      if start + Z.of_nat size =? end_ then (r, size) else (RuneError, 1%nat)
  end.

(** [unicode.IsSpace]: the Latin-1 spaces, then the [White_Space] table
    above Latin-1. *)
Definition IsSpace (r : Z) : bool :=
  if r <=? 255 then
    (r =? 9) || (r =? 10) || (r =? 11) || (r =? 12) || (r =? 13) ||
    (r =? 32) || (r =? 133) || (r =? 160)
  else
    (r =? 5760) || ((8192 <=? r) && (r <=? 8202)) || (r =? 8232) ||
    (r =? 8233) || (r =? 8239) || (r =? 8287) || (r =? 12288).

(** [strings.TrimLeftFunc]: [indexFunc(s, f, false)] ranges over the runes
    of [s] (as [DecodeRune] reads them); [fuel] is the length of [s]. *)
Fixpoint trim_left_func (f : Z -> bool) (s : list ascii) (fuel : nat) : list ascii :=
  match fuel with
  | O => s
  | S k =>
      match s with
      | [] => []
      | _ :: _ =>
          let '(r, w) := DecodeRune s in
          if f r then trim_left_func f (drop w s) k else s
      end
  end.

Definition TrimLeftFunc (s : list ascii) (f : Z -> bool) : list ascii :=
  trim_left_func f s (length s).

(** [strings.lastIndexFunc(s, f, false)]: the start of the last rune of
    [s[0:i]] on which [f] is false, or -1; [fuel] is the length of [s]. *)
Fixpoint lastIndexFunc (f : Z -> bool) (s : list ascii) (i : nat) (fuel : nat) : Z :=
  match fuel with
  | O => -1
  | S k =>
      match i with
      | O => -1
      | S _ =>
          let '(r, size) := DecodeLastRune (take i s) in
          let i := (i - size)%nat in
          if negb (f r) then Z.of_nat i else lastIndexFunc f s i k
      end
  end.

(** [strings.TrimRightFunc]. *)
Definition TrimRightFunc (s : list ascii) (f : Z -> bool) : list ascii :=
  let i := lastIndexFunc f s (length s) (length s) in
  let i :=
    if (0 <=? i) &&
       match nth_error s (Z.to_nat i) with
       | Some c => RuneSelf <=? byte_val c
       | None => false
       end
    then i + Z.of_nat (snd (DecodeRune (drop (Z.to_nat i) s)))
    else i + 1 in
  take (Z.to_nat i) s.

(** [strings.TrimFunc]. *)
Definition TrimFunc (s : list ascii) (f : Z -> bool) : list ascii :=
  TrimRightFunc (TrimLeftFunc s f) f.

(** The first loop of [strings.TrimSpace]: skip ASCII white space; [inl]
    of [s[start:]] when it stops on an ASCII byte that is not a space (or
    at the end), [inr] of [s[start:]] when it meets a byte [>= RuneSelf]. *)
Fixpoint ts_start (l : list ascii) : list ascii + list ascii :=
  match l with
  | [] => inl []
  | c :: r =>
      if RuneSelf <=? byte_val c then inr l
      else if is_space c then ts_start r
      else inl l
  end.

(** The second loop of [strings.TrimSpace], on [s[start:]] reversed:
    [inl] of [s[start:stop]] when it stops on an ASCII byte that is not a
    space, [inr] of [s[start:stop]] when it meets a byte [>= RuneSelf]. *)
Fixpoint ts_stop (rl : list ascii) : list ascii + list ascii :=
  match rl with
  | [] => inl []
  | c :: r =>
      if RuneSelf <=? byte_val c then inr (rev rl)
      else if is_space c then ts_stop r
      else inl (rev rl)
  end.

(** [strings.TrimSpace]: the ASCII fast path, falling back to
    [TrimFunc(s[start:], unicode.IsSpace)] or
    [TrimRightFunc(s[start:stop], unicode.IsSpace)] on a non-ASCII byte. *)
Definition TrimSpace (s : string) : string :=
  String.string_of_list_ascii
    (match ts_start (String.list_ascii_of_string s) with
     | inr rest => TrimFunc rest IsSpace
     | inl rest =>
         match ts_stop (rev rest) with
         | inl r => r
         | inr r => TrimRightFunc r IsSpace
         end
     end).


(** [Orchestrator.Cancel]. [mgr_cancel] is the result of
    [o.manager.Cancel(taskID)], consulted only for a running task;
    [now] is [time.Now()]. *)
Definition orch_Cancel (st : Store) (taskID : string) (mgr_cancel : Result unit)
    (now : Z) : Store * Result unit :=
  match store_Get st taskID with
  | Err m => (st, Err m)
  | Ok t =>
      if IsTerminal t then
        (st, Err ("task " +:+ taskID +:+ " is already in terminal state: " +:+
                  TaskStatus_String (Status t)))
      else
        match (if TaskStatus_eqb (Status t) TaskStatusRunning
               then mgr_cancel else Ok tt) with
        | Err m => (st, Err m)
        | Ok _ =>
            let t := set_CompletedAt (set_Status t TaskStatusCancelled) (Some now) in
            (store_Save st t, Ok tt)
        end
  end.

(** [Orchestrator.Pause]. *)
Definition orch_Pause (st : Store) (taskID : string) (mgr_pause : Result unit)
    (now : Z) : Store * Result Task :=
  match store_Get st taskID with
  | Err m => (st, Err m)
  | Ok t =>
      if TaskStatus_eqb (Status t) TaskStatusPaused then (st, Ok t)
      else if IsTerminal t then
        (st, Err ("task " +:+ taskID +:+ " is already in terminal state: " +:+
                  TaskStatus_String (Status t)))
      else
        match (if TaskStatus_eqb (Status t) TaskStatusRunning
               then mgr_pause else Ok tt) with
        | Err m => (st, Err m)
        | Ok _ =>
            let t := set_CompletedAt (set_Status t TaskStatusPaused) (Some now) in
            (store_Save st t, Ok t)
        end
  end.

(** The running branch shared by [Delete] and [Purge]: the error of
    [o.manager.Cancel] is only logged, the task is marked cancelled and
    saved (the save error is only logged too). *)
Definition mark_cancelled_if_running (st : Store) (t : Task) (now : Z) : Store :=
  if TaskStatus_eqb (Status t) TaskStatusRunning
  then store_Save st (set_CompletedAt (set_Status t TaskStatusCancelled) (Some now))
  else st.

(** [Orchestrator.Delete]. *)
Definition orch_Delete (st : Store) (taskID : string) (now : Z) : Store * Result unit :=
  match store_Get st taskID with
  | Err m => (st, Err m)
  | Ok t =>
      let st := mark_cancelled_if_running st t now in
      match store_Delete st taskID with
      | Ok st' => (st', Ok tt)
      | Err m => (st, Err m)
      end
  end.

(** The log files on disk, by absolute path. *)
Abbreviation Files := (gset string).

(** [Orchestrator.Purge]; [os.Remove] is best effort (its error is
    dropped), so removing a path that does not exist changes nothing. *)
Definition orch_Purge (st : Store) (fs : Files) (taskID : string) (now : Z)
    : (Store * Files) * Result unit :=
  match store_Get st taskID with
  | Err m =>
      if strings_Contains m "task not found" then ((st, fs), Ok tt)
      else ((st, fs), Err m)
  | Ok t =>
      let st := mark_cancelled_if_running st t now in
      let fs := if String.eqb (LogFile t) "" then fs else fs ∖ {[ LogFile t ]} in
      match store_Delete st taskID with
      | Ok st' => ((st', fs), Ok tt)
      | Err m =>
          if strings_Contains m "task not found" then ((st, fs), Ok tt)
          else ((st, fs), Err m)
      end
  end.

(** What ends the [select] of [Orchestrator.Wait] once it has subscribed:
    a task delivered on the subscriber channel (by [onTaskComplete] or by
    the passive waiter on the manager), or the end of [waitCtx] (the
    timeout or the caller's context) with [waitCtx.Err()]'s text and the
    store as it is at that moment. *)
Inductive WaitWake :=
| Delivered (t : Task)
| WaitCtxDone (ctx_err : string) (st_then : Store).

(** [Orchestrator.Wait]: the returned task ([nil] is [None]) and error.
    [Wait] only reads the store: it never calls [Save] or [Delete], and the
    task's execution context is derived from the orchestrator's, not from
    [waitCtx]. *)
Definition orch_Wait (st : Store) (taskID : string) (wake : WaitWake)
    : option Task * option string :=
  match store_Get st taskID with
  | Err m => (None, Some m)
  | Ok t =>
      if IsTerminal t then (Some t, None)
      else
        match wake with
        | Delivered t' => (Some t', None)
        | WaitCtxDone cerr st_then =>
            (st_then !! taskID,
             Some ("timeout waiting for task " +:+ taskID +:+ ": " +:+ cerr))
        end
  end.

(** The result of [toolWaitTask] after the timeout has been parsed. *)
Inductive WaitTaskResult :=
| WaitTaskDone (task : Task) (output_tail : string)
| WaitTaskTimedOut (task : Task) (error : string)
| WaitTaskError (error : string).

Definition toolWaitTask (st : Store) (taskID : string) (wake : WaitWake)
    : WaitTaskResult :=
  match orch_Wait st taskID wake with
  | (Some t, Some e) => WaitTaskTimedOut t e
  | (None, Some e) => WaitTaskError e
  | (Some t, None) => WaitTaskDone t (OutputTail t)
  | (None, None) => WaitTaskError ""
  end.

(* ------------------------------------------------------------------ *)
(** ** Spawn and Resume *)

Definition nl : string := String "010"%char EmptyString.

(** [models.SpawnRequest]; the fields carry a [Req] prefix to keep them
    apart from the fields of [Task]. *)
Record SpawnRequest := mkSpawnRequest {
  ReqPrompt : string;
  ReqWorkDir : string;
  ReqModel : string;
  ReqEngine : string;
  ReqDependencies : list string;
  ReqTags : list string;
  ReqPriority : Z;
  ReqTimeout : string;
  ReqMCPConfig : string;
  ReqExtraArgs : list string;
  ReqBackground : bool;
  ReqIncludeDependencyLogs : bool;
  ReqDependencyLogLines : Z
}.

(** The configured defaults of an [Orchestrator]. *)
Record Orchestrator := mkOrchestrator {
  defaultMCPConfig : string;
  defaultEngine : string
}.

(** The contents of readable files, by path ([os.ReadFile]). *)
Abbreviation FileContents := (gmap string string).

(** [getDependencyLogs]; a dependency that is missing, has no log file or
    whose log cannot be read is skipped. *)
Definition getDependencyLogs (st : Store) (files : FileContents)
    (dependencies : list string) (numLines : nat) : string :=
  match dependencies with
  | [] => ""
  | _ =>
      "===LAST TASK RESULTS===" +:+ nl +:+ nl +:+
      foldr (fun depID acc =>
        match st !! depID with
        | None => acc
        | Some dep =>
            if String.eqb (LogFile dep) "" then acc else
            match files !! LogFile dep with
            | None => acc
            | Some content =>
                let lines := split_nl content in
                let startIdx :=
                  if Nat.ltb numLines (length lines)
                  then (length lines - numLines)%nat else 0%nat in
                "--- Task: " +:+ depID +:+ " ---" +:+ nl +:+
                join_nl (drop startIdx lines) +:+ nl +:+ nl +:+ acc
            end
        end) "" dependencies
  end.

Section SpawnResume.

(** Go's [time.ParseDuration] (an error message or nanoseconds) and
    [time.Duration.String]: standard library functions, taken as
    parameters. *)
Variable ParseDuration : string -> Result Z.
Variable Duration_String : Z -> string.

(** [Orchestrator.Spawn] up to the start decision: the store after the
    new pending task is saved, the task as saved, and whether [canStart]
    let it be handed to [startTask] (the adapter then prefixes its prompt,
    records pid, log file and start time and marks it running). [newID] is
    the value of [generateID()], [now] is [time.Now()]. *)
Definition Spawn (o : Orchestrator) (st : Store) (req : SpawnRequest) (now : Z)
    (newID : string) (files : FileContents) : Store * Result (Task * bool) :=
  let workDir := if String.eqb (ReqWorkDir req) "" then "." else ReqWorkDir req in
  let timeout :=
    if String.eqb (ReqTimeout req) "" then Ok 0
    else match ParseDuration (ReqTimeout req) with
         | Ok d => Ok d
         | Err m => Err ("invalid timeout: " +:+ m)
         end in
  match timeout with
  | Err m => (st, Err m)
  | Ok timeout =>
      let mcpConfig :=
        if String.eqb (ReqMCPConfig req) "" then defaultMCPConfig o else ReqMCPConfig req in
      let engine :=
        if String.eqb (ReqEngine req) "" then defaultEngine o else ReqEngine req in
      let prompt :=
        if ReqIncludeDependencyLogs req && negb (bool_decide (ReqDependencies req = []))
        then
          let logLines := if ReqDependencyLogLines req <=? 0 then 100
                          else ReqDependencyLogLines req in
          let dependencyLogs :=
            getDependencyLogs st files (ReqDependencies req) (Z.to_nat logLines) in
          if String.eqb dependencyLogs "" then ReqPrompt req
          else ReqPrompt req +:+ nl +:+ nl +:+ dependencyLogs
        else ReqPrompt req in
      let task :=
        {| ID := newID; Prompt := prompt; WorkDir := workDir;
           Status := TaskStatusPending; Engine := engine; PID := 0;
           Output := ""; OutputTail := ""; Error := ""; ExitCode := None;
           Model := ReqModel req; LogFile := ""; Progress := None;
           CreatedAt := now; StartedAt := None; CompletedAt := None;
           Dependencies := ReqDependencies req; Tags := ReqTags req;
           Priority := ReqPriority req; Timeout := timeout;
           MCPConfig := mcpConfig; ExtraArgs := ReqExtraArgs req |} in
      let st := store_Save st task in
      (st, Ok (task, canStart st task))
  end.

(** [orchestrator.ResumeOptions]. *)
Record ResumeOptions := mkResumeOptions {
  OptPrompt : string;
  OptModel : string;
  OptBackground : bool;
  OptTimeout : string;
  OptTags : option (list string)
}.

(** [Orchestrator.Resume]. *)
Definition Resume (o : Orchestrator) (st : Store) (taskID : string)
    (opts : ResumeOptions) (now : Z) (newID : string) (files : FileContents)
    : Store * Result (Task * bool) :=
  match store_Get st taskID with
  | Err m => (st, Err m)
  | Ok prev =>
      if negb (TaskStatus_eqb (Status prev) TaskStatusPaused) then
        (st, Err ("task " +:+ taskID +:+ " is not paused (status=" +:+
                  TaskStatus_String (Status prev) +:+ ")"))
      else if String.eqb (TrimSpace (OptPrompt opts)) "" then
        (st, Err "prompt is required")
      else
        let model := if String.eqb (OptModel opts) "" then Model prev else OptModel opts in
        let timeout :=
          if String.eqb (OptTimeout opts) "" && (Timeout prev >? 0)
          then Duration_String (Timeout prev) else OptTimeout opts in
        let tags := match OptTags opts with Some tg => tg | None => Tags prev end in
        let resumePrompt :=
          "Resume work from previous task_id: " +:+ ID prev +:+ nl +:+
          "Previous task log file path: " +:+ LogFile prev +:+ nl +:+ nl +:+
          "Additional resume instructions:" +:+ nl +:+
          TrimSpace (OptPrompt opts) +:+ nl in
        Spawn o st
          {| ReqPrompt := resumePrompt; ReqWorkDir := WorkDir prev;
             ReqModel := model; ReqEngine := ""; ReqDependencies := Dependencies prev;
             ReqTags := tags; ReqPriority := Priority prev; ReqTimeout := timeout;
             ReqMCPConfig := MCPConfig prev; ReqExtraArgs := ExtraArgs prev;
             ReqBackground := OptBackground opts; ReqIncludeDependencyLogs := false;
             ReqDependencyLogLines := 0 |} now newID files
  end.

End SpawnResume.


(* ------------------------------------------------------------------ *)
(** ** Listing ([FileStore.List], [matchesFilter]) *)

(** [store.ListFilter]. [models.TaskStatus] is a string type, so the
    status filter holds strings, compared with the task's status text. *)
Record ListFilter := mkListFilter {
  FStatus : list string;
  FTags : list string;
  FLimit : Z;
  FOffset : Z
}.

(** [FileStore.matchesFilter]: any of the statuses, all of the tags. *)
Definition matchesFilter (t : Task) (filter : ListFilter) : bool :=
  (match FStatus filter with
   | [] => true
   | _ => existsb (fun s => String.eqb (TaskStatus_String (Status t)) s) (FStatus filter)
   end) &&
  forallb (fun filterTag => existsb (fun taskTag => String.eqb taskTag filterTag) (Tags t))
          (FTags filter).

(** The offset and limit step at the end of [FileStore.List]. *)
Definition list_window (offset limit : Z) (result : list Task) : list Task :=
  let result :=
    if 0 <? offset then
      if Z.of_nat (length result) <=? offset then [] else drop (Z.to_nat offset) result
    else result in
  if (0 <? limit) && (limit <? Z.of_nat (length result))
  then take (Z.to_nat limit) result else result.

(** The order [sort.Slice] leaves with [CreatedAt.After] as its less
    function: no task is newer than one listed before it. *)
Definition newer_or_same (a b : Task) : Prop := CreatedAt b <= CreatedAt a.

Definition newest_first : list Task -> Prop := StronglySorted newer_or_same.

(** The tasks of the store, in the iteration order of the Go map (which
    Go leaves unspecified). *)
Definition store_tasks (st : Store) : list Task := map snd (map_to_list st).

(** [FileStore.List]: [result] is a possible answer. The map iteration
    order and [sort.Slice] (which is not stable) leave the order of tasks
    with equal [CreatedAt] open, so the answer is given by a relation. *)
Definition store_List (st : Store) (lf : ListFilter) (result : list Task) : Prop :=
  exists sorted,
    sorted ≡ₚ List.filter (fun t => matchesFilter t lf) (store_tasks st) /\
    newest_first sorted /\
    result = list_window (FOffset lf) (FLimit lf) sorted.

(** [FileStore.UpdateStatus]. *)
Definition store_UpdateStatus (st : Store) (id : string) (status : TaskStatus)
    : Result Store :=
  match st !! id with
  | None => Err (not_found_msg id)
  | Some t => Ok (<[id := set_Status t status]> st)
  end.

(* ------------------------------------------------------------------ *)
(** ** Statistics ([Orchestrator.GetStats]) *)







(* ------------------------------------------------------------------ *)
(** ** The engine manager ([agent.Manager]) and [orchestrator.New] *)

(** The engine [switch] of [Manager.Cancel], [Pause], [Wait] and
    [IsRunning]; [Manager.Spawn]'s has an explicit copilot case, which
    agrees with the default. *)
Definition engine_spawner (engine : string) : Adapter :=
  if String.eqb engine EngineClaude then ClaudeSpawner
  else if String.eqb engine EngineGemini then GeminiSpawner
  else if String.eqb engine EngineOpenCode then OpenCodeSpawner
  else CopilotSpawner.

(** [Manager.taskEngines]. *)
Abbreviation TaskEngines := (gmap string string).

(** [Manager.Spawn]: the engine recorded for the task and the spawner its
    [Spawn] is handed to. *)
Definition Manager_Spawn (te : TaskEngines) (task : Task) : TaskEngines * Adapter :=
  let engine := if String.eqb (Engine task) "" then DefaultEngine else Engine task in
  (<[ID task := engine]> te, engine_spawner engine).

(** [Manager.getTaskEngine]. *)
Definition getTaskEngine (te : TaskEngines) (taskID : string) : string :=
  match te !! taskID with
  | Some engine => engine
  | None => DefaultEngine
  end.

(** The spawner [Manager.Cancel], [Pause], [Wait] and [IsRunning] call. *)
Definition Manager_route (te : TaskEngines) (taskID : string) : Adapter :=
  engine_spawner (getTaskEngine te taskID).

(** [Manager.CleanupTask]. *)
Definition Manager_CleanupTask (te : TaskEngines) (taskID : string) : TaskEngines :=
  delete taskID te.

(** [orchestrator.Config], the fields [New] reads besides the paths. *)
Record OrchConfig := mkOrchConfig {
  CfgMaxParallel : Z;
  CfgDefaultMCPConfig : string;
  CfgDefaultEngine : string
}.

(** [orchestrator.New], the configured defaults it keeps. *)
Definition orch_New (cfg : OrchConfig) : Orchestrator :=
  let defaultEngine :=
    if ValidEngine (CfgDefaultEngine cfg) then CfgDefaultEngine cfg else DefaultEngine in
  {| defaultMCPConfig := CfgDefaultMCPConfig cfg; defaultEngine := defaultEngine |}.

(* ------------------------------------------------------------------ *)
(** ** Truncation and summaries *)

(** [s[:n] + "..."]; [None] when [n] is negative, where Go's slice
    expression panics. *)
Definition cut_with_dots (s : string) (n : Z) : option string :=
  if n <? 0 then None
  else Some (String.substring 0 (Z.to_nat n) s +:+ "...").

(** [truncateForLog] of [internal/orchestrator]. *)
Definition truncateForLog (s : string) (max : Z) : option string :=
  if max <=? 0 then Some ""
  else if Z.of_nat (String.length s) <=? max then Some s
  else cut_with_dots s (max - 3).

(** [truncateString] of [pkg/models]. *)
Definition models_truncateString (s : string) (maxLen : Z) : option string :=
  if Z.of_nat (String.length s) <=? maxLen then Some s
  else cut_with_dots s (maxLen - 3).

(** [models.TaskSummary]. *)
Record TaskSummary := mkTaskSummary {
  SumID : string;
  SumPrompt : string;
  SumWorkDir : string;
  SumStatus : TaskStatus;
  SumCreatedAt : Z;
  SumCompletedAt : option Z;
  SumDuration : string
}.

Section Summaries.

(** [time.Duration.String], as a parameter. *)
Variable Duration_String : Z -> string.

(** [Task.ToSummary]; [None] is a panic of [truncateString]. *)
Definition ToSummary (t : Task) : option TaskSummary :=
  match models_truncateString (Prompt t) 100 with
  | None => None
  | Some prompt =>
      Some {| SumID := ID t; SumPrompt := prompt; SumWorkDir := WorkDir t;
              SumStatus := Status t; SumCreatedAt := CreatedAt t;
              SumCompletedAt := CompletedAt t;
              SumDuration :=
                match CompletedAt t, StartedAt t with
                | Some c, Some s => Duration_String (c - s)
                | _, _ => ""
                end |}
  end.

Fixpoint summaries_of (tasks : list Task) : option (list TaskSummary) :=
  match tasks with
  | [] => Some []
  | t :: rest =>
      match ToSummary t, summaries_of rest with
      | Some s, Some ss => Some (s :: ss)
      | _, _ => None
      end
  end.

(** The filter [toolListTasks] hands to [ListTasks]: a [limit] of 0 (or
    absent) becomes 20. *)
Definition toolListTasks_filter (status tags : list string) (limit offset : Z)
    : ListFilter :=
  {| FStatus := status; FTags := tags;
     FLimit := if limit =? 0 then 20 else limit; FOffset := offset |}.

(** The response of [toolListTasks] for the tasks [ListTasks] returned:
    the summaries and the [total] field. *)
Definition toolListTasks_response (tasks : list Task)
    : option (list TaskSummary * Z) :=
  match summaries_of tasks with
  | Some summaries => Some (summaries, Z.of_nat (length summaries))
  | None => None
  end.

End Summaries.

(* ------------------------------------------------------------------ *)
(** ** JSON form of [models.Duration] *)

Definition quote : string := String "034"%char EmptyString.

Section DurationJSON.

Variable ParseDuration : string -> Result Z.
Variable Duration_String : Z -> string.

(** [Duration.MarshalJSON]. *)
Definition Duration_MarshalJSON (d : Z) : string :=
  quote +:+ Duration_String d +:+ quote.

(** [Duration.UnmarshalJSON] on the bytes [b], for a receiver holding
    [d]: the new value, or the error (the receiver is then unchanged). *)
Definition Duration_UnmarshalJSON (b : string) (d : Z) : Result Z :=
  if (String.length b <? 2)%nat then Ok d
  else
    let s := String.substring 1 (String.length b - 2) b in
    if String.eqb s "" then Ok 0
    else match ParseDuration s with
         | Ok dur => Ok dur
         | Err m => Err m
         end.

End DurationJSON.

(** A string without a newline byte: one line of [strings.Split]. *)
Fixpoint no_nl (s : string) : bool :=
  match s with
  | EmptyString => true
  | String c rest => negb (Ascii.eqb c "010"%char) && no_nl rest
  end.

(** Every task of the store is filed under its own id. *)
Definition keyed (st : Store) : Prop :=
  forall k t, st !! k = Some t -> ID t = k.

(* ------------------------------------------------------------------ *)
(** ** Prompts shown by the TUI, status queries, model ids, personas *)

(** The ASCII trimming of the second loop of [TrimSpace]. *)
Definition trim_right (l : list ascii) : list ascii := rev (trim_left (rev l)).

(** [stripTaskIDPrefix] of the TUI: the prompt as the user wrote it,
    without the first line [buildArgs] put before it. *)
Definition stripTaskIDPrefix (prompt : string) : string :=
  let p := TrimSpace prompt in
  if String.prefix "You are the task_id:" p then
    match String.index 0 nl p with
    | Some idx => TrimSpace (String.substring (idx + 1) (String.length p - (idx + 1)) p)
    | None => p
    end
  else p.

(** [strings.Split(s, ",")]. *)
Fixpoint split_comma (s : string) : list string :=
  match s with
  | EmptyString => [EmptyString]
  | String c rest =>
      if decide (c = ","%char) then EmptyString :: split_comma rest
      else match split_comma rest with
           | x :: xs => String c x :: xs
           | [] => [String c EmptyString]
           end
  end.

(** The [switch] of [parseStatusQuery]: the status a query value names. *)
Definition status_of_string (st : string) : option TaskStatus :=
  if String.eqb st (TaskStatus_String TaskStatusPending) then Some TaskStatusPending
  else if String.eqb st (TaskStatus_String TaskStatusRunning) then Some TaskStatusRunning
  else if String.eqb st (TaskStatus_String TaskStatusPaused) then Some TaskStatusPaused
  else if String.eqb st (TaskStatus_String TaskStatusCompleted) then Some TaskStatusCompleted
  else if String.eqb st (TaskStatus_String TaskStatusFailed) then Some TaskStatusFailed
  else if String.eqb st (TaskStatus_String TaskStatusCancelled) then Some TaskStatusCancelled
  else None.

(** The loop of [parseStatusQuery] over the raw values; every invalid
    value gives the same error, so which one is met first is immaterial. *)
Fixpoint parse_statuses (raw : list string) : Result (list TaskStatus) :=
  match raw with
  | [] => Ok []
  | part :: rest =>
      let st := TrimSpace part in
      if String.eqb st "" then parse_statuses rest
      else match status_of_string st with
           | Some s =>
               match parse_statuses rest with
               | Ok l => Ok (s :: l)
               | Err m => Err m
               end
           | None => Err "invalid status"
           end
  end.

(** Gin's [c.Query(key)]: the first of the key's values, or "". The
    values of the key in the request, in order, are what
    [c.QueryArray(key)] returns. *)
Definition gin_Query (vals : list string) : string :=
  match vals with [] => "" | v :: _ => v end.

(** [parseStatusQuery], for the values of the [status] key. *)
Definition parseStatusQuery (vals : list string) : Result (list TaskStatus) :=
  let raw := vals in
  let raw :=
    match raw with
    | [] =>
        let v := TrimSpace (gin_Query vals) in
        if String.eqb v "" then raw else split_comma v
    | _ => raw
    end in
  parse_statuses raw.

(** One step of the loops of [getAllModelIDs]: the [seen] set and the
    ids collected so far. *)
Definition add_model_id (acc : gset string * list string) (id : string)
    : gset string * list string :=
  let '(seen, modelIDs) := acc in
  if decide (id ∈ seen) then acc else ({[id]} ∪ seen, modelIDs ++ [id]).

(** [getAllModelIDs] for a configuration: the ids of the global models,
    and the model ids of each engine in the order the range over the
    [Engines] map visits them. *)
Definition getAllModelIDs (models : list string) (engines : list (list string))
    : list string :=
  let acc := fold_left add_model_id models (∅, []) in
  let acc := fold_left (fun acc ms => fold_left add_model_id ms acc) engines acc in
  acc.2.

(** [persona.Manager.GetPersona]. *)
Definition GetPersona (personas : gmap string string) (name : string) : string :=
  if String.eqb name "" then ""
  else match personas !! name with Some content => content | None => "" end.

(** [persona.Manager.HasPersona]. *)
Definition HasPersona (personas : gmap string string) (name : string) : bool :=
  if String.eqb name "" then false
  else match personas !! name with Some _ => true | None => false end.

(** [persona.Manager.ApplyPersona]. *)
Definition ApplyPersona (personas : gmap string string) (personaName prompt : string)
    : string :=
  if String.eqb personaName "" then prompt
  else
    let content := GetPersona personas personaName in
    if String.eqb content "" then prompt
    else content +:+ nl +:+ nl +:+ prompt.

(* ------------------------------------------------------------------ *)
(** ** Sample records for the concrete runs below *)

Definition sample_task (id : string) (s : TaskStatus) (deps : list string) : Task :=
  {| ID := id; Prompt := "echo hi"; WorkDir := "/work"; Status := s;
     Engine := "copilot"; PID := 0; Output := ""; OutputTail := "";
     Error := ""; ExitCode := None; Model := ""; LogFile := "/logs/" +:+ id +:+ ".log";
     Progress := None; CreatedAt := 0; StartedAt := None; CompletedAt := None;
     Dependencies := deps; Tags := []; Priority := 0; Timeout := 0;
     MCPConfig := ""; ExtraArgs := [] |}.

(** The reading of the spec's [int(extract_digits(p))] on the extracted
    text: an optional leading minus followed by at least one decimal digit,
    read in base 10; anything else has no integer value. *)
Fixpoint all_digits (s : string) : bool :=
  match s with
  | EmptyString => true
  | String c r => is_digit c && all_digits r
  end.

Fixpoint digits_fold (s : string) (acc : Z) : Z :=
  match s with
  | EmptyString => acc
  | String c r => digits_fold r (10 * acc + digit_value c)
  end.

Definition decimal_int (s : string) : option Z :=
  match s with
  | EmptyString => None
  | String c r =>
      if Ascii.eqb c "-"%char then
        if String.eqb r "" || negb (all_digits r) then None
        else Some (- digits_fold r 0)
      else if all_digits s then Some (digits_fold s 0) else None
  end.

Definition clamp_pct (z : Z) : Z := Z.min 100 (Z.max 0 z).

(** The value [toolSetProgress] passes on, as the amended C5 states it. *)
Definition expected_percentage (p : JsonValue) : Z :=
  match p with
  | JNumber num den => Z.quot num (Zpos den)
  | JInt z => z
  | JString v =>
      match decimal_int (sanitize_from v "") with
      | Some z => if (min_int64 <=? z) && (z <=? max_int64) then z else 0
      | None => 0
      end
  | JOther _ => 0
  end.

Definition sample_orchestrator : Orchestrator :=
  {| defaultMCPConfig := "/etc/mcp.json"; defaultEngine := "copilot" |}.

Definition sample_resume_options (prompt : string) : ResumeOptions :=
  {| OptPrompt := prompt; OptModel := ""; OptBackground := true;
     OptTimeout := ""; OptTags := None |}.

(** A [ParseDuration] that knows one spelling, and a [Duration.String]
    that prints it; enough for the concrete runs below. *)
Definition sample_ParseDuration (s : string) : Result Z :=
  if String.eqb s "1h" then Ok 3600000000000 else Err ("time: invalid duration " +:+ s).

Definition sample_Duration_String (d : Z) : string :=
  if d =? 3600000000000 then "1h" else "0s".

(** A store with one pending and one completed task, both created at 0. *)
Definition sample_store : Store :=
  {[ "a" := sample_task "a" TaskStatusPending [];
     "b" := sample_task "b" TaskStatusCompleted [] ]}.

Definition pending_filter : ListFilter := mkListFilter ["pending"] [] 0 0.

(** A request that asks for the logs of its dependencies. *)
Definition sample_spawn_request (deps : list string) : SpawnRequest :=
  {| ReqPrompt := "next step"; ReqWorkDir := ""; ReqModel := ""; ReqEngine := "";
     ReqDependencies := deps; ReqTags := []; ReqPriority := 0; ReqTimeout := "";
     ReqMCPConfig := ""; ReqExtraArgs := []; ReqBackground := true;
     ReqIncludeDependencyLogs := true; ReqDependencyLogLines := 0 |}.

(* ------------------------------------------------------------------ *)
(** ** Proofs *)


Example getTail_keeps_last_lines :
  getTail ("a" +:+ String "010"%char "b" +:+ String "010"%char "c") 2
  = "b" +:+ String "010"%char "c".
Proof. reflexivity. Qed.

Example coerce_percent_sign : coerce_percentage (JString "45%") = Ok 45.
Proof. reflexivity. Qed.

Example coerce_negative : coerce_percentage (JString "-10") = Ok (-10).
Proof. reflexivity. Qed.

Example coerce_lone_minus : coerce_percentage (JString "-") = Ok 0.
Proof. reflexivity. Qed.

Example coerce_float : coerce_percentage (JNumber 91 2) = Ok 45.
Proof. reflexivity. Qed.

Example coerce_float_out_of_range :
  coerce_percentage (JNumber (10 ^ 19) 1) = Ok min_int64.
Proof. reflexivity. Qed.

Example TrimSpace_ascii_example : TrimSpace "  go on " = "go on".
Proof. vm_compute. reflexivity. Qed.

(** U+00A0 (C2 A0) alone is trimmed away. *)
Example TrimSpace_nbsp :
  TrimSpace (String "194"%char (String "160"%char EmptyString)) = "".
Proof. vm_compute. reflexivity. Qed.

(** U+2003 before and U+00A0 and a space after "x" are trimmed. *)
Example TrimSpace_unicode_spaces :
  TrimSpace (String "226"%char (String "128"%char (String "131"%char
            (String "x"%char (String "194"%char (String "160"%char " ")))))) = "x".
Proof. vm_compute. reflexivity. Qed.

(** A lone byte A0 is not valid UTF-8: it reads as [RuneError], which is
    not a space, so it stays. *)
Example TrimSpace_invalid_byte :
  TrimSpace (String " "%char (String "160"%char " ")) = String "160"%char EmptyString.
Proof. vm_compute. reflexivity. Qed.

Lemma canStart_deps_spec (st : Store) (deps : list string) :
  canStart_deps st deps = true <-> Forall (dep_completed st) deps.
Proof.
  induction deps as [|d ds IH]; simpl.
  - split; auto.
  - rewrite Forall_cons, <- IH. unfold store_Get, dep_completed.
    destruct (st !! d) as [dep|] eqn:Hd.
    + case_decide as Hs.
      * split; [intros Hr; split; eauto | tauto].
      * split; [discriminate|].
        intros [[dep' [Hd' Hs']] _]. congruence.
    + split; [discriminate|].
      intros [[dep' [Hd' _]] _]. congruence.
Qed.

Lemma canStart_spec (st : Store) (t : Task) :
  canStart st t = true <-> Forall (dep_completed st) (Dependencies t).
Proof.
  unfold canStart. destruct (Dependencies t) eqn:E.
  - split; auto.
  - rewrite <- E. apply canStart_deps_spec.
Qed.

Lemma started_by_canStart (st : Store) (ev : SchedEvent) (t : Task) :
  t ∈ started_by st ev -> canStart st t = true.
Proof.
  destruct ev as [t'|c]; simpl.
  - destruct (canStart st t') eqn:E; intros H.
    + apply list_elem_of_singleton in H. subst. exact E.
    + apply not_elem_of_nil in H. contradiction.
  - unfold processDependentTasks. case_decide as Hc; intros H.
    + apply list_elem_of_filter in H. tauto.
    + apply not_elem_of_nil in H. contradiction.
Qed.

(** C1: a task with a non-empty dependency list is handed to an adapter
    (and so leaves [pending] for [running]) only when every dependency id
    resolves in the store to a task whose status is [completed]; when one
    dependency is missing or has any other status, neither [Spawn] nor the
    completion fan-out starts it, so it stays [pending]. *)
Theorem C1_dependency_gating :
  forall (st : Store) (ev : SchedEvent) (t : Task),
    Dependencies t <> [] ->
    (t ∈ started_by st ev ->
       forall d, d ∈ Dependencies t -> dep_completed st d) /\
    ((exists d, d ∈ Dependencies t /\
        (st !! d = None \/
         exists dep, st !! d = Some dep /\ Status dep <> TaskStatusCompleted)) ->
       t ∉ started_by st ev).
Proof.
  intros st ev t _. split.
  - intros H d Hd. apply started_by_canStart, canStart_spec in H.
    rewrite Forall_forall in H. by apply H.
  - intros [d [Hd Hbad]] H.
    apply started_by_canStart, canStart_spec in H.
    rewrite Forall_forall in H.
    destruct (H d Hd) as [dep [Hl Hs]].
    destruct Hbad as [Hn | [dep' [Hl' Hs']]]; congruence.
Qed.

(** C1 witness: task [b] depending on the completed task [a] is started
    by the completion fan-out of [a]. *)
Lemma C1_dependency_gating_witness :
  let a := sample_task "a" TaskStatusCompleted [] in
  let b := sample_task "b" TaskStatusPending ["a"] in
  let st : Store := {[ "a" := a; "b" := b ]} in
  b ∈ started_by st (EvCompleted a) /\ dep_completed st "a".
Proof.
  intros a b st.
  assert (Hin : b ∈ started_by st (EvCompleted a)) by (vm_compute; left).
  split; [exact Hin|].
  refine (proj1 (C1_dependency_gating st (EvCompleted a) b _) Hin "a" _).
  - discriminate.
  - left.
Defined.

(** C2: at reap time an explicit stop ([cancelled] or [paused]) keeps its
    status and error and only records the exit code (when the wait error
    carries one); otherwise exit code 0 gives [completed] and a non-zero
    exit or any wait error gives [failed] with the error text recorded. *)
Theorem C2_reap_final_status :
  forall (t : Task) (err : option WaitErr) (now : Z) (output : string),
    let t' := waitForCompletion t err now output in
    ((Status t = TaskStatusCancelled \/ Status t = TaskStatusPaused) ->
       Status t' = Status t /\ Error t' = Error t /\
       ExitCode t' = match err with
                     | None => Some 0
                     | Some (ExitError c _) => Some c
                     | Some (OtherWaitError _) => ExitCode t
                     end) /\
    ((Status t <> TaskStatusCancelled /\ Status t <> TaskStatusPaused) ->
       (err = None -> Status t' = TaskStatusCompleted /\ ExitCode t' = Some 0) /\
       (forall e, err = Some e ->
          Status t' = TaskStatusFailed /\ Error t' = WaitErr_Error e)).
Proof.
  intros t err now output t'. subst t'. unfold waitForCompletion.
  destruct err as [[c m|m]|]; destruct (Status t) eqn:Hs; cbn; rewrite ?Hs; cbn;
    split; intros H;
    first [ destruct H as [H|H]; discriminate
          | destruct H as [H1 H2]; congruence
          | idtac ];
    repeat split; try reflexivity; intros;
    first [ congruence
          | match goal with He : Some _ = Some _ |- _ =>
              injection He as <-; reflexivity end ].
Qed.

(** C3 (counterexample): in the spawners' [Cancel] (and [Pause]) SIGTERM
    is sent before the status assignment, and when the child exits within
    5 s the reaper runs to completion before the assignment: it sees the
    task still [running], and hands a [failed] record with the signal's
    error text to [onComplete]. *)
Lemma C3_status_set_after_sigterm :
  step_index SendSIGTERM (spawner_Cancel true true) = Some 1%nat /\
  step_index (SetTaskStatus TaskStatusCancelled) (spawner_Cancel true true) = Some 3%nat /\
  step_index SendSIGTERM (spawner_Pause true true) = Some 1%nat /\
  step_index (SetTaskStatus TaskStatusPaused) (spawner_Pause true true) = Some 3%nat /\
  (let t0 := sample_task "c" TaskStatusRunning [] in
   let '(final, reaped) :=
     run_stop (spawner_Cancel true true) t0 None
       (Some (ExitError (-1) "signal: terminated")) 7 "" in
   Status final = TaskStatusCancelled /\
   option_map Status reaped = Some TaskStatusFailed /\
   option_map Error reaped = Some "signal: terminated"%string).
Proof. vm_compute. repeat split. Qed.

(** C4 (code evidence): the engine check of [spawn_agent] rejects
    [gemini] and [opencode] with an error whose own text lists them as
    valid, although [Manager] routes both to their spawners; [copilot] and
    [claude] pass. *)
Theorem C4_gemini_opencode_rejected :
  forall default_engine : string,
    toolSpawnAgent_engine "gemini" default_engine =
      Err "invalid engine: gemini (valid: copilot, claude, gemini, opencode)" /\
    toolSpawnAgent_engine "opencode" default_engine =
      Err "invalid engine: opencode (valid: copilot, claude, gemini, opencode)" /\
    manager_adapter "gemini" = GeminiSpawner /\
    manager_adapter "opencode" = OpenCodeSpawner /\
    toolSpawnAgent_engine "copilot" default_engine = Ok "copilot" /\
    toolSpawnAgent_engine "claude" default_engine = Ok "claude".
Proof. intros d. repeat split; reflexivity. Qed.

(** *** Progress coercion *)

(** The text the sanitising loop builds: an optional minus, then digits. *)
Definition pct_shape (s : string) : bool :=
  match s with
  | EmptyString => true
  | String c r => if Ascii.eqb c "-"%char then all_digits r else all_digits s
  end.

Lemma all_digits_app (a b : string) :
  all_digits (a +:+ b) = all_digits a && all_digits b.
Proof.
  induction a as [|c a IH]; simpl; [reflexivity|].
  rewrite IH. apply andb_assoc.
Qed.

Lemma digit_not_minus (ch : ascii) :
  is_digit ch = true -> Ascii.eqb ch "-"%char = false.
Proof.
  intros H. apply Ascii.eqb_neq. intros ->. discriminate H.
Qed.

Lemma digit_not_plus (ch : ascii) :
  is_digit ch = true -> Ascii.eqb ch "+"%char = false.
Proof.
  intros H. apply Ascii.eqb_neq. intros ->. discriminate H.
Qed.

Lemma pct_shape_snoc (acc : string) (ch : ascii) :
  pct_shape acc = true -> is_digit ch = true ->
  pct_shape (acc +:+ String ch EmptyString) = true.
Proof.
  intros Hs Hd. destruct acc as [|c r]; simpl.
  - rewrite (digit_not_minus ch Hd). simpl. rewrite Hd. reflexivity.
  - simpl in Hs. destruct (Ascii.eqb c "-"%char).
    + rewrite all_digits_app, Hs. simpl. rewrite Hd. reflexivity.
    + simpl in Hs |- *. apply andb_true_iff in Hs as [Hc Hr].
      rewrite Hc, all_digits_app, Hr. simpl. rewrite Hd. reflexivity.
Qed.

Lemma sanitize_from_shape (v acc : string) :
  pct_shape acc = true -> pct_shape (sanitize_from v acc) = true.
Proof.
  revert acc. induction v as [|ch v IH]; intros acc Hacc; simpl; [exact Hacc|].
  destruct (is_digit ch) eqn:Hd; simpl.
  - apply IH, pct_shape_snoc; assumption.
  - destruct (Ascii.eqb ch "-"%char) eqn:Hm; simpl; [|apply IH; exact Hacc].
    destruct (String.eqb acc "") eqn:He; simpl; [|apply IH; exact Hacc].
    apply String.eqb_eq in He. subst acc. apply IH.
    apply Ascii.eqb_eq in Hm. subst ch. reflexivity.
Qed.

Lemma scan_digits_all (r : string) (acc : Z) (n : nat) :
  all_digits r = true -> scan_digits r acc n = (digits_fold r acc, (n + String.length r)%nat).
Proof.
  revert acc n. induction r as [|c r IH]; intros acc n H; simpl.
  - f_equal. lia.
  - simpl in H. apply andb_true_iff in H as [Hc Hr]. rewrite Hc, IH by exact Hr.
    f_equal. lia.
Qed.

Lemma Sscanf_d_shape (s : string) :
  pct_shape s = true ->
  Sscanf_d s = match decimal_int s with
               | Some z => if (min_int64 <=? z) && (z <=? max_int64) then Some z else None
               | None => None
               end.
Proof.
  intros Hs. destruct s as [|c r]; [reflexivity|].
  unfold Sscanf_d, decimal_int. simpl in Hs.
  destruct (Ascii.eqb c "-"%char) eqn:Hm.
  - rewrite scan_digits_all by exact Hs. rewrite Hs. simpl.
    destruct r as [|c' r']; reflexivity.
  - assert (Ha : all_digits (String c r) = true) by exact Hs.
    apply andb_true_iff in Hs as [Hc Hr].
    rewrite (digit_not_plus c Hc), Ha.
    rewrite scan_digits_all by exact Ha.
    reflexivity.
Qed.

Lemma coerce_percentage_expected (p : JsonValue) :
  (forall num den, p = JNumber num den -> min_int64 <= Z.quot num (Zpos den) <= max_int64) ->
  match p with
  | JOther ty => coerce_percentage p = Err ("invalid percentage type: " +:+ ty)
  | _ => coerce_percentage p = Ok (expected_percentage p)
  end.
Proof.
  intros Hr.
  destruct p as [num den|z|v|ty]; try reflexivity.
  { specialize (Hr num den eq_refl). simpl. unfold int_of_float.
    destruct (Z.leb_spec min_int64 (Z.quot num (Zpos den)));
      destruct (Z.leb_spec (Z.quot num (Zpos den)) max_int64);
      simpl; first [reflexivity | lia]. }
  simpl. f_equal.
  pose proof (sanitize_from_shape v "" eq_refl) as Hs.
  destruct (String.eqb (sanitize_from v "") "") eqn:He.
  - apply String.eqb_eq in He. rewrite He. reflexivity.
  - rewrite (Sscanf_d_shape _ Hs).
    destruct (decimal_int (sanitize_from v "")) as [z|]; [|reflexivity].
    destruct ((min_int64 <=? z) && (z <=? max_int64)); reflexivity.
Qed.

Lemma SetProgress_clamp (st : Store) (id : string) (t : Task) (pct : Z)
    (desc : string) (now : Z) :
  st !! id = Some t -> ID t = id ->
  SetProgress st id pct desc now =
    (<[id := set_Progress t (Some (mkTaskProgress (clamp_pct pct) desc now))]> st, Ok tt).
Proof.
  intros Hl Hid. unfold SetProgress, store_Get, store_Save. rewrite Hl. simpl.
  rewrite Hid. do 4 f_equal. unfold clamp_pct. rewrite Z.gtb_ltb. f_equal.
  destruct (Z.ltb_spec pct 0);
    [destruct (Z.ltb_spec 100 0) | destruct (Z.ltb_spec 100 pct)]; lia.
Qed.

(** C5 (counterexample): a digit string above the range of a 64-bit
    [int] makes [Sscanf] fail, so [percentage] stays 0 and 0 is stored,
    where [min(100, max(0, int("9223372036854775808")))] is 100. *)
Lemma C5_overflowing_digits_store_zero :
  let t := sample_task "e" TaskStatusRunning [] in
  let st : Store := {[ "e" := t ]} in
  toolSetProgress st "e" (JString "9223372036854775808") "half" 5 =
    (<[ "e" := set_Progress t (Some (mkTaskProgress 0 "half" 5)) ]> st, Ok 0) /\
  clamp_pct 9223372036854775808 = 100.
Proof. split; reflexivity. Qed.

(** What [toolSetProgress] stores and reports on a stored task. *)
Lemma toolSetProgress_stored :
  forall (st : Store) (id : string) (t : Task) (p : JsonValue) (desc : string) (now : Z),
    st !! id = Some t -> ID t = id ->
    (forall num den, p = JNumber num den -> min_int64 <= Z.quot num (Zpos den) <= max_int64) ->
    match p with
    | JOther ty => toolSetProgress st id p desc now =
                     (st, Err ("invalid percentage type: " +:+ ty))
    | _ => toolSetProgress st id p desc now =
             (<[id := set_Progress t (Some (mkTaskProgress
                        (clamp_pct (expected_percentage p)) desc now))]> st,
              Ok (expected_percentage p))
    end.
Proof.
  intros st id t p desc now Hl Hid Hr.
  pose proof (coerce_percentage_expected p Hr) as Hc.
  unfold toolSetProgress.
  destruct p as [num den|z|v|ty]; rewrite Hc; try reflexivity;
    rewrite (SetProgress_clamp st id t _ desc now Hl Hid); reflexivity.
Qed.

(** C5 (amended): on a task id present in the store, [set_progress] stores
    [min(100, max(0, n))] where [n] is the integer itself, the float
    truncated toward zero (for a float whose truncation is within the
    range of a 64-bit [int]), or, for a string, the integer read from its
    kept characters (digits, and a minus kept only when nothing was kept
    before it) when that reading exists and fits a 64-bit [int], and 0
    otherwise; a percentage of any other JSON type is an error that leaves
    the store unchanged. *)
Theorem C5_set_progress_coercion :
  forall (st : Store) (id : string) (t : Task) (p : JsonValue) (desc : string) (now : Z),
    st !! id = Some t -> ID t = id ->
    (forall num den, p = JNumber num den -> min_int64 <= Z.quot num (Zpos den) <= max_int64) ->
    match p with
    | JOther ty => toolSetProgress st id p desc now =
                     (st, Err ("invalid percentage type: " +:+ ty))
    | _ => toolSetProgress st id p desc now =
             (<[id := set_Progress t (Some (mkTaskProgress
                        (clamp_pct (expected_percentage p)) desc now))]> st,
              Ok (expected_percentage p))
    end.
Proof. exact toolSetProgress_stored. Qed.

(** C5 witness: the text "45%" on a stored task. *)
Lemma C5_set_progress_coercion_witness :
  let t := sample_task "e" TaskStatusRunning [] in
  let st : Store := {[ "e" := t ]} in
  toolSetProgress st "e" (JString "45%") "half" 5 =
    (<[ "e" := set_Progress t (Some (mkTaskProgress 45 "half" 5)) ]> st, Ok 45).
Proof.
  intros t st.
  refine (C5_set_progress_coercion st "e" t (JString "45%") "half" 5
            (lookup_insert_eq _ _ _) eq_refl _).
  intros num den H. discriminate H.
Defined.

(** *** Cancel and Pause of terminal tasks *)

(** C6 (counterexample): pausing a task that is already [paused] returns
    the task and no error. *)
Lemma C6_pause_of_paused_succeeds :
  let t := sample_task "p" TaskStatusPaused [] in
  let st : Store := {[ "p" := t ]} in
  orch_Pause st "p" (Ok tt) 9 = (st, Ok t).
Proof. reflexivity. Qed.

(** C6 (amended): on a terminal task, [cancel_task] returns the error
    "task <id> is already in terminal state: <status>" and [pause_task]
    returns that error for [completed], [failed] and [cancelled] tasks; for
    an already [paused] task [pause_task] returns the task with no error.
    In every case the store is left unchanged. *)
Theorem C6_terminal_cancel_pause :
  forall (st : Store) (id : string) (t : Task) (mgr : Result unit) (now : Z),
    st !! id = Some t -> IsTerminal t = true ->
    orch_Cancel st id mgr now =
      (st, Err ("task " +:+ id +:+ " is already in terminal state: " +:+
                TaskStatus_String (Status t))) /\
    (Status t = TaskStatusPaused -> orch_Pause st id mgr now = (st, Ok t)) /\
    (Status t <> TaskStatusPaused ->
       orch_Pause st id mgr now =
         (st, Err ("task " +:+ id +:+ " is already in terminal state: " +:+
                   TaskStatus_String (Status t)))).
Proof.
  intros st id t mgr now Hl Ht.
  unfold orch_Cancel, orch_Pause, store_Get. rewrite Hl, Ht.
  split; [reflexivity|]. split.
  - intros Hp. rewrite Hp. reflexivity.
  - intros Hp. destruct (Status t) eqn:Hs; try reflexivity. contradiction.
Qed.

Lemma C6_terminal_cancel_pause_witness :
  let t := sample_task "d" TaskStatusCompleted [] in
  let st : Store := {[ "d" := t ]} in
  orch_Cancel st "d" (Ok tt) 3 =
    (st, Err "task d is already in terminal state: completed") /\
  orch_Pause st "d" (Ok tt) 3 =
    (st, Err "task d is already in terminal state: completed").
Proof.
  intros t st.
  destruct (C6_terminal_cancel_pause st "d" t (Ok tt) 3
              (lookup_insert_eq _ _ _) eq_refl) as [Hc [_ Hp]].
  split; [exact Hc | apply Hp; discriminate].
Defined.

(** *** Delete and Purge *)

Lemma strings_Contains_not_found (id : string) :
  strings_Contains (not_found_msg id) "task not found" = true.
Proof. reflexivity. Qed.

(** C7 (counterexample): deleting an id that is not in the store returns
    the store's not-found error. *)
Lemma C7_delete_missing_fails :
  orch_Delete ∅ "nonexistent" 1 = (∅, Err "task not found: nonexistent").
Proof. reflexivity. Qed.

(** C7 (amended): for an id not in the store, [purge] returns success and
    changes nothing, while [delete] returns the not-found error; [purge] of
    a stored task returns success, removes the record and its log file
    (when it has one), and purging the same id again returns success. *)
Theorem C7_delete_purge_missing :
  forall (st : Store) (fs : Files) (id : string) (now : Z),
    (st !! id = None ->
       orch_Purge st fs id now = ((st, fs), Ok tt) /\
       orch_Delete st id now = (st, Err (not_found_msg id))) /\
    (forall t, st !! id = Some t -> ID t = id ->
       let '((st1, fs1), r1) := orch_Purge st fs id now in
       r1 = Ok tt /\ st1 !! id = None /\
       (LogFile t <> "" -> LogFile t ∉ fs1) /\
       orch_Purge st1 fs1 id now = ((st1, fs1), Ok tt)).
Proof.
  intros st fs id now. split.
  - intros Hn. unfold orch_Purge, orch_Delete, store_Get. rewrite Hn.
    rewrite strings_Contains_not_found. split; reflexivity.
  - intros t Hl Hid. unfold orch_Purge at 1. unfold store_Get. rewrite Hl.
    unfold mark_cancelled_if_running.
    set (fs1 := if String.eqb (LogFile t) "" then fs else fs ∖ {[LogFile t]}).
    assert (Hlog : LogFile t <> "" -> LogFile t ∉ fs1).
    { intros Hne. subst fs1. destruct (String.eqb (LogFile t) "") eqn:E.
      - apply String.eqb_eq in E. contradiction.
      - set_solver. }
    assert (Hgone : forall st2 : Store, st2 !! id = None ->
              orch_Purge st2 fs1 id now = ((st2, fs1), Ok tt)).
    { intros st2 H2. unfold orch_Purge, store_Get. rewrite H2.
      rewrite strings_Contains_not_found. reflexivity. }
    destruct (TaskStatus_eqb (Status t) TaskStatusRunning);
      unfold store_Delete, store_Save; cbn [ID set_CompletedAt set_Status];
      rewrite ?Hid, ?lookup_insert_eq, ?Hl; cbn beta iota zeta;
      (split; [reflexivity|]);
      (split; [apply lookup_delete_eq|]);
      (split; [exact Hlog | apply Hgone, lookup_delete_eq]).
Qed.

(** *** Wait *)

(** C9: [wait] on a terminal task returns it at once with no error; when
    the wait context ends first, it returns the record stored at that
    moment together with the timeout error, and [wait_task] reports both;
    [Wait] itself writes nothing to the store. *)
Theorem C9_wait_terminal_and_timeout :
  forall (st : Store) (id : string) (t : Task) (wake : WaitWake),
    st !! id = Some t ->
    (IsTerminal t = true -> orch_Wait st id wake = (Some t, None)) /\
    (forall cerr st_then,
       IsTerminal t = false -> wake = WaitCtxDone cerr st_then ->
       orch_Wait st id wake =
         (st_then !! id, Some ("timeout waiting for task " +:+ id +:+ ": " +:+ cerr)) /\
       (forall t_now, st_then !! id = Some t_now ->
          toolWaitTask st id wake =
            WaitTaskTimedOut t_now ("timeout waiting for task " +:+ id +:+ ": " +:+ cerr))).
Proof.
  intros st id t wake Hl. unfold orch_Wait, store_Get. rewrite Hl. split.
  - intros Ht. rewrite Ht. reflexivity.
  - intros cerr st_then Ht ->. rewrite Ht. split; [reflexivity|].
    intros t_now Hn. unfold toolWaitTask, orch_Wait, store_Get.
    rewrite Hl, Ht, Hn. reflexivity.
Qed.

Lemma C9_wait_terminal_and_timeout_witness :
  let t := sample_task "w" TaskStatusRunning [] in
  let st : Store := {[ "w" := t ]} in
  orch_Wait st "w" (WaitCtxDone "context deadline exceeded" st) =
    (Some t, Some "timeout waiting for task w: context deadline exceeded").
Proof.
  intros t st.
  exact (proj1 (proj2 (C9_wait_terminal_and_timeout st "w" t
           (WaitCtxDone "context deadline exceeded" st) (lookup_insert_eq _ _ _))
           "context deadline exceeded" st eq_refl eq_refl)).
Defined.

(** *** SetProgress frame *)

(** C10: [SetProgress] succeeds on every stored task whatever its status,
    and the saved record differs from the old one only in its progress:
    putting the old progress back gives the old record. At the tool level
    every numeric or string percentage succeeds in the same way: some
    integer [v] is reported and [min(100, max(0, v))] is the only change
    to the store. *)
Theorem C10_set_progress_frame :
  forall (st : Store) (id : string) (t : Task) (pct : Z) (desc : string) (now : Z),
    st !! id = Some t -> ID t = id ->
    exists t',
      SetProgress st id pct desc now = (<[id := t']> st, Ok tt) /\
      Progress t' = Some (mkTaskProgress (clamp_pct pct) desc now) /\
      Status t' = Status t /\
      set_Progress t' (Progress t) = t /\
      (forall p : JsonValue,
         (forall ty, p <> JOther ty) ->
         exists v, toolSetProgress st id p desc now =
           (<[id := set_Progress t (Some (mkTaskProgress (clamp_pct v) desc now))]> st,
            Ok v)).
Proof.
  intros st id t pct desc now Hl Hid.
  exists (set_Progress t (Some (mkTaskProgress (clamp_pct pct) desc now))).
  split; [apply SetProgress_clamp; assumption|].
  split; [reflexivity|]. split; [reflexivity|].
  split; [destruct t; reflexivity|].
  intros p Hp.
  destruct (coerce_percentage p) as [v|m] eqn:Hc.
  - exists v. unfold toolSetProgress. rewrite Hc.
    rewrite (SetProgress_clamp st id t v desc now Hl Hid). reflexivity.
  - destruct p as [num den|z|w|ty]; try discriminate Hc.
    exfalso. exact (Hp ty eq_refl).
Qed.

Lemma C10_set_progress_frame_witness :
  let t := sample_task "f" TaskStatusCompleted [] in
  let st : Store := {[ "f" := t ]} in
  exists t', SetProgress st "f" 150 "over" 4 = (<[ "f" := t' ]> st, Ok tt) /\
             Status t' = TaskStatusCompleted.
Proof.
  intros t st.
  destruct (C10_set_progress_frame st "f" t 150 "over" 4
              (lookup_insert_eq _ _ _) eq_refl) as [t' [H [_ [Hs _]]]].
  exists t'. split; [exact H | exact Hs].
Defined.




(** *** Listing *)


Lemma StronglySorted_sublist {A} (R : A -> A -> Prop) (l1 l2 : list A) :
  l1 `sublist_of` l2 -> StronglySorted R l2 -> StronglySorted R l1.
Proof.
  induction 1 as [|x l1 l2 Hs IH|x l1 l2 Hs IH]; intros H.
  - constructor.
  - apply StronglySorted_inv in H as [H1 H2]. constructor; [auto|].
    apply Forall_forall. intros y Hy.
    rewrite Forall_forall in H2. apply H2.
    apply (sublist_subseteq _ _ Hs). exact Hy.
  - apply StronglySorted_inv in H as [H1 _]. auto.
Qed.

Lemma list_window_sublist (offset limit : Z) (l : list Task) :
  list_window offset limit l `sublist_of` l.
Proof.
  unfold list_window.
  set (r := if 0 <? offset then
              if Z.of_nat (length l) <=? offset then [] else drop (Z.to_nat offset) l
            else l).
  assert (Hr : r `sublist_of` l).
  { subst r. destruct (0 <? offset); [|reflexivity].
    destruct (Z.of_nat (length l) <=? offset);
      [apply sublist_nil_l | apply sublist_drop]. }
  destruct ((0 <? limit) && (limit <? Z.of_nat (length r))); [|exact Hr].
  etrans; [apply sublist_take | exact Hr].
Qed.

Lemma list_window_length (offset limit : Z) (l : list Task) :
  Z.of_nat (length (list_window offset limit l)) =
  (let n := Z.of_nat (length l) in
   let m := if 0 <? offset then Z.max 0 (n - offset) else n in
   if 0 <? limit then Z.min limit m else m).
Proof.
  unfold list_window. cbv zeta.
  set (r := if 0 <? offset then
              if Z.of_nat (length l) <=? offset then [] else drop (Z.to_nat offset) l
            else l).
  assert (Hr : Z.of_nat (length r) =
               (if 0 <? offset then Z.max 0 (Z.of_nat (length l) - offset)
                else Z.of_nat (length l))).
  { subst r. destruct (Z.ltb_spec 0 offset); [|reflexivity].
    destruct (Z.leb_spec (Z.of_nat (length l)) offset); simpl; rewrite ?length_drop; lia. }
  rewrite <- Hr.
  destruct (Z.ltb_spec 0 limit); simpl; [|lia].
  destruct (Z.ltb_spec limit (Z.of_nat (length r))); simpl; rewrite ?length_take; lia.
Qed.

Lemma store_tasks_lookup (st : Store) (t : Task) :
  In t (store_tasks st) -> exists id, st !! id = Some t.
Proof.
  unfold store_tasks. intros Hin. apply in_map_iff in Hin as [[k v] [Hv Hk]].
  simpl in Hv. subst v. exists k. apply elem_of_map_to_list, list_elem_of_In, Hk.
Qed.

(** Every task [FileStore.List] returns is in the store and matches the
    filter, and the answer is ordered newest first. *)
Theorem X_List_sound (st : Store) (lf : ListFilter) (result : list Task) :
  store_List st lf result ->
  newest_first result /\
  (forall t, t ∈ result -> matchesFilter t lf = true /\ exists id, st !! id = Some t).
Proof.
  intros (sorted & Hp & Hs & ->). split.
  - eapply StronglySorted_sublist; [apply list_window_sublist | exact Hs].
  - intros t Ht.
    apply (sublist_subseteq _ _ (list_window_sublist _ _ _)) in Ht.
    rewrite Hp in Ht. apply list_elem_of_In, filter_In in Ht as [Hin Hm].
    split; [exact Hm | exact (store_tasks_lookup st t Hin)].
Qed.

Lemma X_List_sound_witness :
  store_List sample_store pending_filter [sample_task "a" TaskStatusPending []] /\
  newest_first [sample_task "a" TaskStatusPending []].
Proof.
  assert (H : store_List sample_store pending_filter [sample_task "a" TaskStatusPending []]).
  { exists [sample_task "a" TaskStatusPending []]. split; [|split].
    - vm_compute. reflexivity.
    - repeat constructor.
    - vm_compute. reflexivity. }
  split; [exact H | apply (X_List_sound _ _ _ H)].
Defined.

(** The size of the page [FileStore.List] returns: with [n] matching
    tasks, a positive offset skips that many (all of them when it reaches
    [n]) and a positive limit caps what is left; a negative offset or
    limit is ignored. With neither, every matching task is listed. *)
Theorem X_List_window (st : Store) (lf : ListFilter) (result : list Task) :
  store_List st lf result ->
  let n := Z.of_nat (length (List.filter (fun t => matchesFilter t lf) (store_tasks st))) in
  let m := if 0 <? FOffset lf then Z.max 0 (n - FOffset lf) else n in
  Z.of_nat (length result) = (if 0 <? FLimit lf then Z.min (FLimit lf) m else m) /\
  (FOffset lf <= 0 -> FLimit lf <= 0 ->
   result ≡ₚ List.filter (fun t => matchesFilter t lf) (store_tasks st)).
Proof.
  intros (sorted & Hp & _ & ->) n m.
  assert (Hn : Z.of_nat (length sorted) = n) by (subst n; now rewrite (Permutation_length Hp)).
  clearbody n. subst m. split.
  - rewrite <- Hn. apply list_window_length.
  - intros Ho Hl. unfold list_window.
    destruct (Z.ltb_spec 0 (FOffset lf)); [lia|].
    destruct (Z.ltb_spec 0 (FLimit lf)); [lia|]. simpl. exact Hp.
Qed.

Lemma X_List_window_witness :
  store_List sample_store pending_filter [sample_task "a" TaskStatusPending []] /\
  Z.of_nat (length [sample_task "a" TaskStatusPending []]) = 1.
Proof.
  assert (H : store_List sample_store pending_filter [sample_task "a" TaskStatusPending []]).
  { exists [sample_task "a" TaskStatusPending []]. split; [|split].
    - vm_compute. reflexivity.
    - repeat constructor.
    - vm_compute. reflexivity. }
  split; [exact H|].
  destruct (X_List_window _ _ _ H) as [Hl _]. rewrite Hl. vm_compute. reflexivity.
Defined.

(** [matchesFilter] keeps a task when its status is one of the listed
    statuses (or none is listed) and it carries every listed tag. *)
Theorem X_matchesFilter_spec (t : Task) (lf : ListFilter) :
  matchesFilter t lf = true <->
  (FStatus lf = [] \/ TaskStatus_String (Status t) ∈ FStatus lf) /\
  Forall (fun tag => tag ∈ Tags t) (FTags lf).
Proof.
  unfold matchesFilter. rewrite andb_true_iff, forallb_forall, Forall_forall.
  assert (Hs : (match FStatus lf with
                | [] => true
                | _ => existsb (fun s => String.eqb (TaskStatus_String (Status t)) s) (FStatus lf)
                end = true) <->
               (FStatus lf = [] \/ TaskStatus_String (Status t) ∈ FStatus lf)).
  { destruct (FStatus lf) as [|s0 rest] eqn:E.
    - split; [left; reflexivity | reflexivity].
    - rewrite <- E, existsb_exists. split.
      + intros [x [Hx Heq]]. right. apply String.eqb_eq in Heq. subst x.
        by apply list_elem_of_In.
      + intros [Hn|Hx]; [congruence|].
        exists (TaskStatus_String (Status t)). split; [by apply list_elem_of_In|].
        apply String.eqb_refl. }
  rewrite Hs. apply and_iff_compat_l. split.
  - intros H tag Htag. apply list_elem_of_In in Htag.
    specialize (H tag Htag). apply existsb_exists in H as [x [Hx Heq]].
    apply String.eqb_eq in Heq. subst x. by apply list_elem_of_In.
  - intros H tag Htag. apply list_elem_of_In in Htag.
    apply existsb_exists. exists tag. split.
    + apply list_elem_of_In, H, Htag.
    + apply String.eqb_refl.
Qed.

(** *** The store *)

(** [FileStore]: [Get] after [Save] returns the saved task and leaves
    every other id as it was; after a successful [Delete] the id is gone
    and every other id is as it was; deleting a missing id fails with
    "task not found: <id>". *)
Theorem X_store_save_get_delete (st : Store) (t : Task) (id : string) :
  store_Get (store_Save st t) (ID t) = Ok t /\
  (id <> ID t -> store_Get (store_Save st t) id = store_Get st id) /\
  (forall st', store_Delete st id = Ok st' ->
     store_Get st' id = Err (not_found_msg id) /\
     forall id', id' <> id -> store_Get st' id' = store_Get st id') /\
  (st !! id = None -> store_Delete st id = Err (not_found_msg id)).
Proof.
  unfold store_Get, store_Save, store_Delete. split; [|split; [|split]].
  - now rewrite lookup_insert_eq.
  - intros Hne. now rewrite lookup_insert_ne by congruence.
  - intros st' Hd. destruct (st !! id) eqn:E; [|discriminate].
    injection Hd as <-. split.
    + now rewrite lookup_delete_eq.
    + intros id' Hne. now rewrite lookup_delete_ne by congruence.
  - intros ->. reflexivity.
Qed.

(** [FileStore.UpdateStatus] fails with "task not found: <id>" on a
    missing id; otherwise it changes the status of that task only. *)
Theorem X_store_UpdateStatus (st : Store) (id : string) (s : TaskStatus) :
  (st !! id = None -> store_UpdateStatus st id s = Err (not_found_msg id)) /\
  (forall t, st !! id = Some t ->
     exists st', store_UpdateStatus st id s = Ok st' /\
       st' !! id = Some (set_Status t s) /\
       forall id', id' <> id -> st' !! id' = st !! id').
Proof.
  unfold store_UpdateStatus. split.
  - intros ->. reflexivity.
  - intros t ->. eexists. split; [reflexivity|]. split.
    + apply lookup_insert_eq.
    + intros id' Hne. now apply lookup_insert_ne.
Qed.

(** *** Statistics *)










(** *** The engine manager *)

(** [Manager.Spawn] records the engine it used, so [Cancel], [Pause],
    [Wait] and [IsRunning] on that task reach the spawner that started it
    (the one the engine name selects), and the routing of every other task
    is unchanged. A task the manager has no record of (one started before
    a restart) is routed to the copilot spawner. *)
Theorem X_manager_routing (te : TaskEngines) (t : Task) :
  (Manager_Spawn te t).2 = manager_adapter (Engine t) /\
  Manager_route (Manager_Spawn te t).1 (ID t) = (Manager_Spawn te t).2 /\
  (forall id, id <> ID t -> Manager_route (Manager_Spawn te t).1 id = Manager_route te id) /\
  (forall id, te !! id = None -> Manager_route te id = CopilotSpawner).
Proof.
  unfold Manager_Spawn, Manager_route, getTaskEngine, manager_adapter, engine_spawner.
  simpl. split; [|split; [|split]].
  - reflexivity.
  - now rewrite lookup_insert_eq.
  - intros id Hne. now rewrite lookup_insert_ne by congruence.
  - intros id ->. reflexivity.
Qed.

(** *** Spawn and Resume *)

Lemma string_app_empty_r (s : string) : s +:+ "" = s.
Proof.
  induction s as [|c s IH]; [reflexivity|].
  change (String c (s +:+ "") = String c s). rewrite IH. reflexivity.
Qed.

(** What a successful [Spawn] saves. *)
Lemma Spawn_ok (PD : string -> Result Z) (o : Orchestrator) (st : Store)
    (req : SpawnRequest) (now : Z) (newID : string) (files : FileContents)
    (st' : Store) (t : Task) (started : bool) :
  Spawn PD o st req now newID files = (st', Ok (t, started)) ->
  st' = <[newID := t]> st /\ started = canStart st' t /\
  ID t = newID /\ Status t = TaskStatusPending /\ CreatedAt t = now /\
  Engine t = (if String.eqb (ReqEngine req) "" then defaultEngine o else ReqEngine req) /\
  WorkDir t = (if String.eqb (ReqWorkDir req) "" then "." else ReqWorkDir req) /\
  MCPConfig t = (if String.eqb (ReqMCPConfig req) "" then defaultMCPConfig o
                 else ReqMCPConfig req) /\
  Dependencies t = ReqDependencies req /\
  (ReqTimeout req = "" -> Timeout t = 0) /\
  (ReqTimeout req <> "" -> PD (ReqTimeout req) = Ok (Timeout t)) /\
  Prompt t =
    (if ReqIncludeDependencyLogs req && negb (bool_decide (ReqDependencies req = []))
     then
       let dependencyLogs :=
         getDependencyLogs st files (ReqDependencies req)
           (Z.to_nat (if ReqDependencyLogLines req <=? 0 then 100
                      else ReqDependencyLogLines req)) in
       if String.eqb dependencyLogs "" then ReqPrompt req
       else ReqPrompt req +:+ nl +:+ nl +:+ dependencyLogs
     else ReqPrompt req).
Proof.
  unfold Spawn. intros H.
  destruct (String.eqb_spec (ReqTimeout req) "") as [Et|Et].
  - injection H as <- <- <-. cbn. repeat split; auto. intros; contradiction.
  - destruct (PD (ReqTimeout req)) as [d|m] eqn:Ep; [|discriminate H].
    injection H as <- <- <-. cbn. repeat split; auto. intros; contradiction.
Qed.

(** [Orchestrator.Spawn]: a timeout that does not parse is refused with
    "invalid timeout: ..." and nothing is saved. Otherwise the new task is
    saved under the id from [generateID], pending, created now, with the
    default engine and MCP config filling in empty fields and "." for an
    empty work dir. It is started at once when it has no dependencies, and
    never when one of them is missing from the store. *)
Theorem X_Spawn (PD : string -> Result Z) (o : Orchestrator) (st : Store)
    (req : SpawnRequest) (now : Z) (newID : string) (files : FileContents) :
  (forall m, ReqTimeout req <> "" -> PD (ReqTimeout req) = Err m ->
     Spawn PD o st req now newID files = (st, Err ("invalid timeout: " +:+ m))) /\
  ((ReqTimeout req <> "" -> exists d, PD (ReqTimeout req) = Ok d) ->
     exists st' t started, Spawn PD o st req now newID files = (st', Ok (t, started))) /\
  (forall st' t started, Spawn PD o st req now newID files = (st', Ok (t, started)) ->
     st' = <[newID := t]> st /\ ID t = newID /\ Status t = TaskStatusPending /\
     CreatedAt t = now /\
     Engine t = (if String.eqb (ReqEngine req) "" then defaultEngine o else ReqEngine req) /\
     WorkDir t = (if String.eqb (ReqWorkDir req) "" then "." else ReqWorkDir req) /\
     MCPConfig t = (if String.eqb (ReqMCPConfig req) "" then defaultMCPConfig o
                    else ReqMCPConfig req) /\
     (ReqIncludeDependencyLogs req = false -> Prompt t = ReqPrompt req) /\
     (ReqDependencies req = [] -> started = true) /\
     (forall d, d ∈ ReqDependencies req -> st !! d = None -> started = false)).
Proof.
  split; [|split].
  - intros m Hne Hp. unfold Spawn.
    apply String.eqb_neq in Hne. rewrite Hne, Hp. reflexivity.
  - intros Hok. unfold Spawn.
    destruct (String.eqb_spec (ReqTimeout req) "") as [Et|Et].
    + eexists _, _, _. reflexivity.
    + destruct (Hok Et) as [d Hd]. rewrite Hd. eexists _, _, _. reflexivity.
  - intros st' t started H.
    destruct (Spawn_ok _ _ _ _ _ _ _ _ _ _ H)
      as (Hst & Hs & Hid & Hstat & Hc & He & Hw & Hm & Hdeps & _ & _ & Hp).
    do 7 (split; [assumption|]). split; [|split].
    + intros Hf. rewrite Hp, Hf. reflexivity.
    + intros Hn. rewrite Hs. unfold canStart. rewrite Hdeps, Hn. reflexivity.
    + intros d Hin Hmiss. rewrite Hs.
      destruct (canStart st' t) eqn:E; [|reflexivity].
      apply canStart_spec in E. rewrite Hdeps in E.
      rewrite Forall_forall in E. destruct (E d Hin) as (dep & Hl & Hdc).
      rewrite Hst in Hl. destruct (decide (d = newID)) as [->|Hne].
      * rewrite lookup_insert_eq in Hl. injection Hl as <-. congruence.
      * rewrite lookup_insert_ne in Hl by congruence. congruence.
Qed.

Lemma getDependencyLogs_unresolved (st : Store) (files : FileContents)
    (deps : list string) (n : nat) :
  deps <> [] ->
  Forall (fun d => match st !! d with
                   | None => True
                   | Some dep => LogFile dep = "" \/ files !! LogFile dep = None
                   end) deps ->
  getDependencyLogs st files deps n = "===LAST TASK RESULTS===" +:+ nl +:+ nl.
Proof.
  intros Hne Hall. unfold getDependencyLogs.
  destruct deps as [|d ds]; [contradiction|].
  match goal with
  | |- context [foldr ?F "" _] =>
      assert (Hf : forall l, Forall (fun d => match st !! d with
                   | None => True
                   | Some dep => LogFile dep = "" \/ files !! LogFile dep = None
                   end) l -> foldr F "" l = "")
  end.
  { intros l Hl. induction Hl as [|x xs Hx _ IH]; [reflexivity|].
    cbn [foldr]. rewrite IH.
    destruct (st !! x) as [dep|]; [|reflexivity].
    destruct Hx as [Hx|Hx].
    - rewrite Hx. reflexivity.
    - destruct (String.eqb (LogFile dep) ""); [reflexivity|]. rewrite Hx. reflexivity. }
  rewrite (Hf _ Hall).
  rewrite !string_app_empty_r. reflexivity.
Qed.

(** [Spawn] with [include_dependency_logs] when none of the dependencies
    has a readable log (each is missing from the store, has no log file,
    or its log file cannot be read): the prompt still gets the results
    header, so it is the request's prompt followed by a blank line and
    "===LAST TASK RESULTS===" with nothing under it. *)
Theorem X_Spawn_dependency_logs_header (PD : string -> Result Z) (o : Orchestrator)
    (st : Store) (req : SpawnRequest) (now : Z) (newID : string) (files : FileContents)
    (st' : Store) (t : Task) (started : bool) :
  ReqIncludeDependencyLogs req = true ->
  ReqDependencies req <> [] ->
  Forall (fun d => match st !! d with
                   | None => True
                   | Some dep => LogFile dep = "" \/ files !! LogFile dep = None
                   end) (ReqDependencies req) ->
  Spawn PD o st req now newID files = (st', Ok (t, started)) ->
  Prompt t = ReqPrompt req +:+ nl +:+ nl +:+ "===LAST TASK RESULTS===" +:+ nl +:+ nl.
Proof.
  intros Hi Hne Hall H.
  destruct (Spawn_ok _ _ _ _ _ _ _ _ _ _ H) as (_ & _ & _ & _ & _ & _ & _ & _ & _ & _ & _ & Hp).
  rewrite Hp, Hi. rewrite (bool_decide_eq_false_2 _ Hne). cbn [andb negb].
  rewrite getDependencyLogs_unresolved by assumption. reflexivity.
Qed.

Lemma X_Spawn_dependency_logs_header_witness :
  exists st' t started,
    Spawn sample_ParseDuration sample_orchestrator ∅ (sample_spawn_request ["gone"])
      5 "task-1" ∅ = (st', Ok (t, started)) /\
    Prompt t = "next step" +:+ nl +:+ nl +:+ "===LAST TASK RESULTS===" +:+ nl +:+ nl.
Proof.
  destruct (Spawn sample_ParseDuration sample_orchestrator ∅ (sample_spawn_request ["gone"])
              5 "task-1" ∅) as [st' [[t started]|m]] eqn:E.
  - exists st', t, started. split; [reflexivity|].
    apply (X_Spawn_dependency_logs_header sample_ParseDuration sample_orchestrator ∅
             (sample_spawn_request ["gone"]) 5 "task-1" ∅ st' t started).
    + reflexivity.
    + discriminate.
    + repeat constructor.
    + exact E.
  - vm_compute in E. discriminate E.
Defined.

(** [Resume] hands [Spawn] an empty engine, so the new task runs on the
    orchestrator's default engine, which [New] only keeps when
    [ValidEngine] accepts it: whatever engine the paused task ran on,
    its continuation goes to the copilot or the claude spawner. *)
Theorem X_Resume_default_engine (PD : string -> Result Z) (DS : Z -> string)
    (cfg : OrchConfig) (st : Store) (taskID : string) (opts : ResumeOptions)
    (now : Z) (newID : string) (files : FileContents)
    (st' : Store) (D : Task) (started : bool) :
  Resume PD DS (orch_New cfg) st taskID opts now newID files = (st', Ok (D, started)) ->
  Engine D = (if ValidEngine (CfgDefaultEngine cfg) then CfgDefaultEngine cfg
              else DefaultEngine) /\
  (manager_adapter (Engine D) = CopilotSpawner \/
   manager_adapter (Engine D) = ClaudeSpawner).
Proof.
  intros H. unfold Resume in H.
  destruct (store_Get st taskID) as [prev|m]; [|discriminate H].
  destruct (negb (TaskStatus_eqb (Status prev) TaskStatusPaused)); [discriminate H|].
  destruct (String.eqb (TrimSpace (OptPrompt opts)) ""); [discriminate H|].
  apply Spawn_ok in H. destruct H as (_ & _ & _ & _ & _ & He & _).
  cbn [ReqEngine String.eqb] in He. rewrite He. unfold orch_New. cbn [defaultEngine].
  split; [reflexivity|].
  destruct (ValidEngine (CfgDefaultEngine cfg)) eqn:V.
  - unfold ValidEngine in V.
    destruct (String.eqb_spec (CfgDefaultEngine cfg) EngineCopilot) as [->|_];
      [left; reflexivity|].
    destruct (String.eqb_spec (CfgDefaultEngine cfg) EngineClaude) as [->|_];
      [right; reflexivity|].
    destruct (String.eqb_spec (CfgDefaultEngine cfg) "") as [->|_];
      [left; reflexivity|discriminate V].
  - left. reflexivity.
Qed.

Lemma X_Resume_default_engine_witness :
  let P := {| ID := "p"; Prompt := "x"; WorkDir := "/w"; Status := TaskStatusPaused;
              Engine := EngineGemini; PID := 0; Output := ""; OutputTail := "";
              Error := ""; ExitCode := None; Model := ""; LogFile := "/logs/p.log";
              Progress := None; CreatedAt := 0; StartedAt := None; CompletedAt := None;
              Dependencies := []; Tags := []; Priority := 0; Timeout := 0;
              MCPConfig := ""; ExtraArgs := [] |} in
  let cfg := mkOrchConfig 4 "" EngineGemini in
  exists st' D started,
    Resume sample_ParseDuration sample_Duration_String (orch_New cfg) {[ "p" := P ]} "p"
      (sample_resume_options "go on") 1 "task-2" ∅ = (st', Ok (D, started)) /\
    manager_adapter (Engine P) = GeminiSpawner /\
    manager_adapter (Engine D) = CopilotSpawner.
Proof.
  intros P cfg.
  destruct (Resume sample_ParseDuration sample_Duration_String (orch_New cfg)
              {[ "p" := P ]} "p" (sample_resume_options "go on") 1 "task-2" ∅)
    as [st' [[D started]|m]] eqn:E.
  - exists st', D, started. split; [reflexivity|]. split; [reflexivity|].
    destruct (X_Resume_default_engine _ _ _ _ _ _ _ _ _ _ _ _ E) as [He _].
    rewrite He. reflexivity.
  - vm_compute in E. discriminate E.
Defined.

(** *** Output tails *)

Lemma string_app_assoc (a b c : string) : (a +:+ b) +:+ c = a +:+ (b +:+ c).
Proof.
  induction a as [|x a IH]; [reflexivity|].
  change (String x ((a +:+ b) +:+ c) = String x (a +:+ (b +:+ c))). now rewrite IH.
Qed.

Lemma string_length_app (a b : string) :
  String.length (a +:+ b) = (String.length a + String.length b)%nat.
Proof.
  induction a as [|x a IH]; [reflexivity|].
  change (S (String.length (a +:+ b)) = S (String.length a + String.length b))%nat. now rewrite IH.
Qed.

Lemma split_nl_not_nil (s : string) : split_nl s <> [].
Proof.
  destruct s as [|c r]; simpl; [discriminate|].
  case_decide; [discriminate|]. destruct (split_nl r); discriminate.
Qed.

Lemma join_split_nl (s : string) : join_nl (split_nl s) = s.
Proof.
  induction s as [|c r IH]; [reflexivity|]. simpl. case_decide as Hc.
  - subst c. pose proof (split_nl_not_nil r) as Hn.
    destruct (split_nl r) as [|x xs] eqn:E; [contradiction|].
    change (join_nl (EmptyString :: x :: xs)) with
      (EmptyString +:+ String "010"%char EmptyString +:+ join_nl (x :: xs)).
    rewrite IH. reflexivity.
  - destruct (split_nl r) as [|x xs] eqn:E.
    + simpl in IH. subst r. reflexivity.
    + destruct xs as [|y ys].
      * simpl in *. now rewrite IH.
      * change (join_nl (String c x :: y :: ys)) with
          (String c (x +:+ String "010"%char EmptyString +:+ join_nl (y :: ys))).
        change (join_nl (x :: y :: ys)) with
          (x +:+ String "010"%char EmptyString +:+ join_nl (y :: ys)) in IH.
        now rewrite IH.
Qed.

Lemma split_nl_no_nl (s : string) : Forall (fun x => no_nl x = true) (split_nl s).
Proof.
  induction s as [|c r IH]; simpl; [repeat constructor|]. case_decide as Hc.
  - constructor; [reflexivity | exact IH].
  - destruct (split_nl r) as [|x xs]; [repeat constructor|].
    + simpl. rewrite andb_true_r. apply negb_true_iff, Ascii.eqb_neq. exact Hc.
    + inversion IH as [|? ? Hx Hxs]; subst. constructor; [|exact Hxs].
      simpl. rewrite Hx, andb_true_r. apply negb_true_iff, Ascii.eqb_neq. exact Hc.
Qed.

Lemma split_nl_single (x : string) : no_nl x = true -> split_nl x = [x].
Proof.
  induction x as [|c r IH]; [reflexivity|]. simpl.
  intros H. apply andb_true_iff in H as [Hc Hr].
  apply negb_true_iff, Ascii.eqb_neq in Hc.
  case_decide; [contradiction|]. now rewrite IH.
Qed.

Lemma split_nl_app_nl (x r : string) :
  no_nl x = true -> split_nl (x +:+ String "010"%char r) = x :: split_nl r.
Proof.
  induction x as [|c x IH]; intros H.
  - simpl. try (case_decide; [|contradiction]). reflexivity.
  - simpl in H. apply andb_true_iff in H as [Hc Hx].
    apply negb_true_iff, Ascii.eqb_neq in Hc.
    change (split_nl (String c (x +:+ String "010"%char r)) = String c x :: split_nl r).
    simpl. case_decide; [contradiction|]. now rewrite IH.
Qed.

Lemma split_join_nl (l : list string) :
  l <> [] -> Forall (fun x => no_nl x = true) l -> split_nl (join_nl l) = l.
Proof.
  induction l as [|x [|y ys] IH]; intros Hne Hl; [contradiction| |].
  - inversion Hl; subst. simpl. now apply split_nl_single.
  - inversion Hl as [|? ? Hx Hys]; subst.
    change (join_nl (x :: y :: ys)) with
      (x +:+ String "010"%char EmptyString +:+ join_nl (y :: ys)).
    change (String "010"%char EmptyString +:+ join_nl (y :: ys)) with
      (String "010"%char (join_nl (y :: ys))).
    rewrite split_nl_app_nl by exact Hx. rewrite IH; [reflexivity|discriminate|exact Hys].
Qed.

Lemma join_nl_drop_suffix (l : list string) (k : nat) :
  exists p, join_nl l = p +:+ join_nl (drop k l).
Proof.
  revert l. induction k as [|k IH]; intros l.
  - exists EmptyString. reflexivity.
  - destruct l as [|x xs].
    + exists EmptyString. reflexivity.
    + destruct (IH xs) as [p Hp]. cbn [drop].
      destruct xs as [|y ys].
      * exists x. rewrite drop_nil. simpl. now rewrite string_app_empty_r.
      * exists (x +:+ String "010"%char EmptyString +:+ p).
        change (join_nl (x :: y :: ys)) with
          (x +:+ String "010"%char EmptyString +:+ join_nl (y :: ys)).
        rewrite Hp, !string_app_assoc. reflexivity.
Qed.

(** [getTail]: an output with at most [n] lines is returned whole;
    otherwise what is returned is an end of the output, and (for [n]
    positive) splitting it gives exactly the last [n] lines. *)
Theorem X_getTail (output : string) (n : nat) :
  ((length (split_nl output) <= n)%nat -> getTail output n = output) /\
  (exists p, output = p +:+ getTail output n) /\
  ((0 < n < length (split_nl output))%nat ->
     split_nl (getTail output n) =
       drop (length (split_nl output) - n) (split_nl output) /\
     length (split_nl (getTail output n)) = n).
Proof.
  unfold getTail. split; [|split].
  - intros H. case_decide; [reflexivity | lia].
  - case_decide.
    + exists EmptyString. reflexivity.
    + destruct (join_nl_drop_suffix (split_nl output) (length (split_nl output) - n))
        as [p Hp].
      exists p. rewrite <- Hp. symmetry. apply join_split_nl.
  - intros Hn. case_decide; [lia|].
    assert (Hs : split_nl (join_nl (drop (length (split_nl output) - n) (split_nl output)))
                 = drop (length (split_nl output) - n) (split_nl output)).
    { apply split_join_nl.
      - intros Hd. apply (f_equal length) in Hd. rewrite length_drop in Hd. simpl in Hd. lia.
      - apply Forall_drop, split_nl_no_nl. }
    rewrite Hs. split; [reflexivity|]. rewrite length_drop. lia.
Qed.

(** *** Truncation *)

Lemma substring_prefix_length (s : string) (k : nat) :
  (k <= String.length s)%nat -> String.length (String.substring 0 k s) = k.
Proof.
  revert k. induction s as [|c s IH]; intros k Hk.
  - simpl in Hk. assert (k = 0%nat) by lia. subst. reflexivity.
  - destruct k as [|k]; [reflexivity|]. simpl in *. rewrite IH; lia.
Qed.

Lemma cut_with_dots_spec (s : string) (n : Z) :
  0 <= n -> Z.of_nat (String.length s) > n ->
  cut_with_dots s n = Some (String.substring 0 (Z.to_nat n) s +:+ "...") /\
  Z.of_nat (String.length (String.substring 0 (Z.to_nat n) s +:+ "...")) = n + 3.
Proof.
  intros H0 Hl. unfold cut_with_dots.
  destruct (Z.ltb_spec n 0); [lia|]. split; [reflexivity|].
  rewrite string_length_app, substring_prefix_length by lia. simpl. lia.
Qed.

(** [truncateForLog s max]: [""] for a non-positive [max], [s] itself
    when it fits, and otherwise the first [max-3] bytes followed by
    "...", exactly [max] bytes long, when [max] is at least 3. For [max]
    of 1 or 2 and a longer string the slice bound [max-3] is negative and
    the call panics. *)
Theorem X_truncateForLog (s : string) (max : Z) :
  (max <= 0 -> truncateForLog s max = Some "") /\
  (0 < max -> Z.of_nat (String.length s) <= max -> truncateForLog s max = Some s) /\
  (3 <= max -> max < Z.of_nat (String.length s) ->
     truncateForLog s max = Some (String.substring 0 (Z.to_nat (max - 3)) s +:+ "...") /\
     Z.of_nat (String.length (String.substring 0 (Z.to_nat (max - 3)) s +:+ "...")) = max) /\
  (0 < max < 3 -> max < Z.of_nat (String.length s) -> truncateForLog s max = None).
Proof.
  unfold truncateForLog. split; [|split; [|split]].
  - intros H. destruct (Z.leb_spec max 0); [reflexivity|lia].
  - intros H Hl. destruct (Z.leb_spec max 0); [lia|].
    destruct (Z.leb_spec (Z.of_nat (String.length s)) max); [reflexivity|lia].
  - intros H Hl. destruct (Z.leb_spec max 0); [lia|].
    destruct (Z.leb_spec (Z.of_nat (String.length s)) max); [lia|].
    destruct (cut_with_dots_spec s (max - 3)) as [Hc Hn]; [lia|lia|].
    split; [exact Hc | lia].
  - intros H Hl. destruct (Z.leb_spec max 0); [lia|].
    destruct (Z.leb_spec (Z.of_nat (String.length s)) max); [lia|].
    unfold cut_with_dots. destruct (Z.ltb_spec (max - 3) 0); [reflexivity|lia].
Qed.

Lemma ToSummary_some (DS : Z -> string) (t : Task) :
  exists sm, ToSummary DS t = Some sm /\ SumID sm = ID t /\ SumStatus sm = Status t /\
    Z.of_nat (String.length (SumPrompt sm)) <= 100 /\
    (Z.of_nat (String.length (Prompt t)) <= 100 -> SumPrompt sm = Prompt t).
Proof.
  unfold ToSummary, models_truncateString.
  destruct (Z.leb_spec (Z.of_nat (String.length (Prompt t))) 100) as [H|H].
  - eexists. split; [reflexivity|]. cbn. repeat split; auto.
  - destruct (cut_with_dots_spec (Prompt t) (100 - 3)) as [Hc Hn]; [lia|lia|].
    rewrite Hc. eexists. split; [reflexivity|]. cbn. repeat split; [lia|]. intros; lia.
Qed.

(** [toolListTasks]: every task [ListTasks] returns gets a summary, in
    order, with its prompt cut to at most 100 bytes; [total] is the number
    of summaries on this page, so at most 20 when no limit is given and at
    most [limit] for a positive one. *)
Theorem X_toolListTasks (DS : Z -> string) (st : Store) (status tags : list string)
    (limit offset : Z) (tasks : list Task) :
  store_List st (toolListTasks_filter status tags limit offset) tasks ->
  exists sums total,
    toolListTasks_response DS tasks = Some (sums, total) /\
    map SumID sums = map ID tasks /\
    Forall (fun sm => Z.of_nat (String.length (SumPrompt sm)) <= 100) sums /\
    total = Z.of_nat (length tasks) /\
    (limit = 0 -> total <= 20) /\
    (0 < limit -> total <= limit).
Proof.
  intros (sorted & _ & _ & Hw).
  assert (Hs : forall l, exists sums, summaries_of DS l = Some sums /\
                 map SumID sums = map ID l /\
                 Forall (fun sm => Z.of_nat (String.length (SumPrompt sm)) <= 100) sums).
  { induction l as [|t l IH].
    - exists []. repeat constructor.
    - destruct IH as (sums & Hl & Hi & Hf).
      destruct (ToSummary_some DS t) as (sm & Ht & Hid & _ & Hp & _).
      exists (sm :: sums). simpl. rewrite Ht, Hl. split; [reflexivity|].
      split; [simpl; congruence | constructor; assumption]. }
  destruct (Hs tasks) as (sums & Hl & Hi & Hf).
  exists sums, (Z.of_nat (length sums)).
  unfold toolListTasks_response. rewrite Hl.
  assert (Hlen : length sums = length tasks)
    by (rewrite <- (length_map SumID sums), Hi; apply length_map).
  split; [reflexivity|]. split; [exact Hi|]. split; [exact Hf|].
  rewrite Hlen. split; [reflexivity|].
  pose proof (list_window_length (FOffset (toolListTasks_filter status tags limit offset))
                (FLimit (toolListTasks_filter status tags limit offset)) sorted) as HL.
  rewrite <- Hw in HL. cbn [FLimit FOffset toolListTasks_filter] in HL.
  split.
  - intros ->. rewrite HL. cbn. lia.
  - intros Hp. rewrite HL. destruct (Z.eqb_spec limit 0); [lia|].
    destruct (Z.ltb_spec 0 limit); lia.
Qed.

Lemma X_toolListTasks_witness :
  exists sums total,
    store_List sample_store (toolListTasks_filter ["pending"] [] 0 0)
      [sample_task "a" TaskStatusPending []] /\
    toolListTasks_response sample_Duration_String [sample_task "a" TaskStatusPending []]
      = Some (sums, total) /\ total = 1.
Proof.
  assert (H : store_List sample_store (toolListTasks_filter ["pending"] [] 0 0)
                [sample_task "a" TaskStatusPending []]).
  { exists [sample_task "a" TaskStatusPending []]. split; [|split].
    - vm_compute. reflexivity.
    - repeat constructor.
    - vm_compute. reflexivity. }
  destruct (X_toolListTasks sample_Duration_String _ _ _ _ _ _ H)
    as (sums & total & Hr & _ & _ & Ht & _).
  exists sums, total. split; [exact H|]. split; [exact Hr|]. rewrite Ht. reflexivity.
Defined.

(** *** Duration JSON *)

Lemma substring_app_prefix (s x : string) :
  String.substring 0 (String.length s) (s +:+ x) = s.
Proof.
  induction s as [|c s IH]; [destruct x; reflexivity|].
  change (String c (String.substring 0 (String.length s) (s +:+ x)) = String c s).
  now rewrite IH.
Qed.

(** [Duration.UnmarshalJSON] reads back what [MarshalJSON] writes,
    whenever [time.ParseDuration] reads back the non-empty text of
    [Duration.String], whatever the receiver held before. *)
Theorem X_Duration_roundtrip (PD : string -> Result Z) (DS : Z -> string) (d old : Z) :
  DS d <> "" -> PD (DS d) = Ok d ->
  Duration_UnmarshalJSON PD (Duration_MarshalJSON DS d) old = Ok d.
Proof.
  intros Hne Hp. unfold Duration_UnmarshalJSON, Duration_MarshalJSON, quote.
  change (String "034"%char EmptyString +:+ DS d +:+ String "034"%char EmptyString)
    with (String "034"%char (DS d +:+ String "034"%char EmptyString)).
  cbn [String.length]. rewrite (string_length_app (DS d)). cbn [String.length].
  replace (S (String.length (DS d) + 1) - 2)%nat with (String.length (DS d)) by lia.
  replace (S (String.length (DS d) + 1) <? 2)%nat with false
    by (symmetry; apply Nat.ltb_ge; lia).
  change (String.substring 1 (String.length (DS d))
            (String "034"%char (DS d +:+ String "034"%char EmptyString)))
    with (String.substring 0 (String.length (DS d)) (DS d +:+ String "034"%char EmptyString)).
  rewrite substring_app_prefix.
  apply String.eqb_neq in Hne. rewrite Hne, Hp. reflexivity.
Qed.

Lemma X_Duration_roundtrip_witness :
  sample_Duration_String 3600000000000 <> "" /\
  Duration_UnmarshalJSON sample_ParseDuration
    (Duration_MarshalJSON sample_Duration_String 3600000000000) 5 = Ok 3600000000000.
Proof.
  split; [vm_compute; discriminate|].
  apply X_Duration_roundtrip; vm_compute; [discriminate | reflexivity].
Defined.

(** [Duration.UnmarshalJSON] does not check its input is a quoted
    string: on fewer than two bytes it leaves the receiver as it was, on
    exactly two bytes it sets it to 0, and on longer input it drops the
    first and the last byte, whatever they are, and parses the rest. *)
Theorem X_Duration_UnmarshalJSON_unchecked (PD : string -> Result Z) (b : string)
    (d : Z) :
  ((String.length b < 2)%nat -> Duration_UnmarshalJSON PD b d = Ok d) /\
  (String.length b = 2%nat -> Duration_UnmarshalJSON PD b d = Ok 0) /\
  (forall (c1 c2 : ascii) (m : string), m <> "" ->
     Duration_UnmarshalJSON PD (String c1 (m +:+ String c2 EmptyString)) d = PD m).
Proof.
  unfold Duration_UnmarshalJSON. split; [|split].
  - intros H. apply Nat.ltb_lt in H. now rewrite H.
  - intros H. rewrite H. cbn [Nat.ltb Nat.leb Nat.sub].
    destruct b as [|x [|y [|z r]]]; try discriminate H. reflexivity.
  - intros c1 c2 m Hm. cbn [String.length]. rewrite string_length_app. cbn [String.length].
    replace (S (String.length m + 1) - 2)%nat with (String.length m) by lia.
    replace (S (String.length m + 1) <? 2)%nat with false
      by (symmetry; apply Nat.ltb_ge; lia).
    change (String.substring 1 (String.length m) (String c1 (m +:+ String c2 EmptyString)))
      with (String.substring 0 (String.length m) (m +:+ String c2 EmptyString)).
    rewrite substring_app_prefix.
    apply String.eqb_neq in Hm. rewrite Hm. destruct (PD m); reflexivity.
Qed.

(** *** The prompt the TUI shows *)

Lemma trim_left_all (a b : list ascii) :
  forallb is_space a = true -> trim_left (a ++ b) = trim_left b.
Proof.
  induction a as [|c a IH]; [reflexivity|]. simpl.
  intros H. apply andb_true_iff in H as [Hc Ha]. rewrite Hc. auto.
Qed.


Lemma trim_left_nil (l : list ascii) : forallb is_space l = true -> trim_left l = [].
Proof.
  intros H. rewrite <- (app_nil_r l), trim_left_all by exact H. reflexivity.
Qed.



Lemma forallb_rev {A} (p : A -> bool) (l : list A) : forallb p (rev l) = forallb p l.
Proof.
  induction l as [|x l IH]; [reflexivity|]. simpl.
  rewrite forallb_app, IH. simpl. destruct (p x), (forallb p l); reflexivity.
Qed.



Lemma trim_right_nil (l : list ascii) : forallb is_space l = true -> trim_right l = [].
Proof.
  intros H. unfold trim_right. rewrite trim_left_nil; [reflexivity|]. now rewrite forallb_rev.
Qed.
























(** *** Status queries *)

Lemma status_of_string_spec (st : string) (s : TaskStatus) :
  status_of_string st = Some s -> TaskStatus_String s = st.
Proof.
  unfold status_of_string.
  repeat match goal with
  | |- context [String.eqb st ?x] =>
      destruct (String.eqb_spec st x) as [->|_]; [intros H; injection H as <-; reflexivity|]
  end.
  intros H. discriminate H.
Qed.

Lemma parse_statuses_ok (raw : list string) (l : list TaskStatus) :
  parse_statuses raw = Ok l ->
  map TaskStatus_String l =
  List.filter (fun v => negb (String.eqb v "")) (map TrimSpace raw).
Proof.
  revert l. induction raw as [|part rest IH]; intros l H.
  - injection H as <-. reflexivity.
  - cbn [parse_statuses] in H. cbn [map List.filter].
    destruct (String.eqb (TrimSpace part) "") eqn:E.
    + apply IH, H.
    + destruct (status_of_string (TrimSpace part)) as [s|] eqn:Es; [|discriminate H].
      destruct (parse_statuses rest) as [l'|m] eqn:Er; [|discriminate H].
      injection H as <-. cbn [negb map]. f_equal.
      * now apply status_of_string_spec.
      * now apply IH.
Qed.

Lemma parse_statuses_err (raw : list string) :
  (exists v, In v raw /\ TrimSpace v <> "" /\ status_of_string (TrimSpace v) = None) ->
  parse_statuses raw = Err "invalid status".
Proof.
  induction raw as [|part rest IH]; intros (v & Hin & Hne & Hs); [destruct Hin|].
  cbn [parse_statuses]. destruct Hin as [<-|Hin].
  - apply String.eqb_neq in Hne. rewrite Hne, Hs. reflexivity.
  - rewrite IH by eauto.
    destruct (String.eqb (TrimSpace part) ""); [reflexivity|].
    destruct (status_of_string (TrimSpace part)); reflexivity.
Qed.

Lemma parse_statuses_exists (raw : list string) :
  (forall v, In v raw -> TrimSpace v = "" \/ status_of_string (TrimSpace v) <> None) ->
  exists l, parse_statuses raw = Ok l.
Proof.
  induction raw as [|part rest IH]; intros H; [eexists; reflexivity|].
  destruct IH as [l Hl]; [intros v Hv; apply H; now right|].
  cbn [parse_statuses]. rewrite Hl.
  destruct (String.eqb_spec (TrimSpace part) "") as [E|E]; [eexists; reflexivity|].
  destruct (H part (or_introl eq_refl)) as [E'|E']; [contradiction|].
  destruct (status_of_string (TrimSpace part)); [eexists; reflexivity | contradiction].
Qed.

(** [parseStatusQuery]: the comma-separated fallback is only tried when
    the [status] key has no value, and then [c.Query] is empty, so it
    never applies and each value is taken whole. No value means no
    filter; a successful parse gives the trimmed non-blank values in
    order; one value that is not a status name (such as
    "pending,running") makes the whole query fail with "invalid status". *)
Theorem X_parseStatusQuery (vals : list string) :
  parseStatusQuery vals = parse_statuses vals /\
  (vals = [] -> parseStatusQuery vals = Ok []) /\
  (forall l, parseStatusQuery vals = Ok l ->
     map TaskStatus_String l =
     List.filter (fun v => negb (String.eqb v "")) (map TrimSpace vals)) /\
  ((exists v, In v vals /\ TrimSpace v <> "" /\ status_of_string (TrimSpace v) = None) ->
     parseStatusQuery vals = Err "invalid status") /\
  ((forall v, In v vals -> TrimSpace v = "" \/ status_of_string (TrimSpace v) <> None) ->
     exists l, parseStatusQuery vals = Ok l).
Proof.
  assert (Hq : parseStatusQuery vals = parse_statuses vals)
    by (destruct vals; reflexivity).
  rewrite Hq. split; [reflexivity|]. split; [|split; [|split]].
  - intros ->. reflexivity.
  - apply parse_statuses_ok.
  - apply parse_statuses_err.
  - apply parse_statuses_exists.
Qed.

(** *** Model ids *)

Lemma fold_add_model_id (l : list string) (seen : gset string) (ids : list string) :
  (forall x, x ∈ seen <-> x ∈ ids) -> NoDup ids ->
  (forall x, x ∈ (fold_left add_model_id l (seen, ids)).1 <->
             x ∈ (fold_left add_model_id l (seen, ids)).2) /\
  NoDup (fold_left add_model_id l (seen, ids)).2 /\
  (forall x, x ∈ (fold_left add_model_id l (seen, ids)).2 <-> x ∈ ids \/ x ∈ l) /\
  (exists rest, (fold_left add_model_id l (seen, ids)).2 = ids ++ rest).
Proof.
  revert seen ids. induction l as [|y l IH]; intros seen ids Hs Hn.
  - cbn. split; [exact Hs|]. split; [exact Hn|]. split.
    + intros x. rewrite elem_of_nil. tauto.
    + exists []. now rewrite app_nil_r.
  - cbn [fold_left]. destruct (decide (y ∈ seen)) as [Hy|Hy].
    + replace (add_model_id (seen, ids) y) with (seen, ids)
        by (unfold add_model_id; now rewrite decide_True).
      destruct (IH seen ids Hs Hn) as (H1 & H2 & H3 & H4).
      split; [exact H1|]. split; [exact H2|]. split; [|exact H4].
      intros x. rewrite H3, elem_of_cons. apply Hs in Hy.
      split; [tauto|]. intros [Hx|[->|Hx]]; tauto.
    + replace (add_model_id (seen, ids) y) with ({[y]} ∪ seen, ids ++ [y])
        by (unfold add_model_id; now rewrite decide_False).
      assert (Hs' : forall x, x ∈ {[y]} ∪ seen <-> x ∈ ids ++ [y]).
      { intros x. rewrite elem_of_union, elem_of_singleton, elem_of_app,
          list_elem_of_singleton, Hs. tauto. }
      assert (Hn' : NoDup (ids ++ [y])).
      { apply NoDup_app. split; [exact Hn|]. split.
        - intros x Hx Hx'. apply list_elem_of_singleton in Hx'. subst.
          apply Hy, Hs, Hx.
        - apply NoDup_singleton. }
      destruct (IH _ _ Hs' Hn') as (H1 & H2 & H3 & [rest H4]).
      split; [exact H1|]. split; [exact H2|]. split.
      * intros x. rewrite H3, elem_of_app, list_elem_of_singleton, elem_of_cons.
        tauto.
      * exists (y :: rest). rewrite H4, <- app_assoc. reflexivity.
Qed.

Lemma fold_engines (es : list (list string)) (seen : gset string) (ids : list string) :
  (forall x, x ∈ seen <-> x ∈ ids) -> NoDup ids ->
  let r := fold_left (fun acc ms => fold_left add_model_id ms acc) es (seen, ids) in
  NoDup r.2 /\
  (forall x, x ∈ r.2 <-> x ∈ ids \/ exists ms, ms ∈ es /\ x ∈ ms) /\
  (exists rest, r.2 = ids ++ rest).
Proof.
  revert seen ids. induction es as [|ms es IH]; intros seen ids Hs Hn r; subst r.
  - cbn. split; [exact Hn|]. split.
    + intros x. split; [tauto|]. intros [Hx|(ms & Hm & _)]; [exact Hx|].
      apply elem_of_nil in Hm. contradiction.
    + exists []. now rewrite app_nil_r.
  - cbn [fold_left].
    destruct (fold_add_model_id ms seen ids Hs Hn) as (H1 & H2 & H3 & [rest1 H4]).
    destruct (fold_left add_model_id ms (seen, ids)) as [seen1 ids1] eqn:E.
    cbn [fst snd] in *.
    destruct (IH seen1 ids1 H1 H2) as (G1 & G2 & [rest2 G3]).
    split; [exact G1|]. split.
    + intros x. rewrite G2, H3. split.
      * intros [[Hx|Hx]|(ms' & Hm & Hx)]; [now left | right | right].
        -- exists ms. split; [left|]; assumption.
        -- exists ms'. split; [right|]; assumption.
      * intros [Hx|(ms' & Hm & Hx)]; [now left; left|].
        apply elem_of_cons in Hm as [->|Hm]; [left; now right|].
        right. exists ms'. split; assumption.
    + exists (rest1 ++ rest2). rewrite G3, H4, app_assoc. reflexivity.
Qed.

(** [getAllModelIDs] with a configuration: no id twice, exactly the ids
    of the global models and of every engine's models, whatever order the
    engines are visited in, and the global models' ids first. *)
Theorem X_getAllModelIDs (models : list string) (engines : list (list string)) :
  NoDup (getAllModelIDs models engines) /\
  (forall x, x ∈ getAllModelIDs models engines <->
             x ∈ models \/ exists ms, ms ∈ engines /\ x ∈ ms) /\
  (exists rest, getAllModelIDs models engines = getAllModelIDs models [] ++ rest).
Proof.
  unfold getAllModelIDs. cbn [fold_left].
  assert (H0 : forall x, x ∈ (∅ : gset string) <-> x ∈ ([] : list string)).
  { intros x. rewrite elem_of_nil. set_solver. }
  destruct (fold_add_model_id models ∅ [] H0 (NoDup_nil_2)) as (H1 & H2 & H3 & _).
  destruct (fold_left add_model_id models (∅, [])) as [seen ids] eqn:E.
  cbn [fst snd] in *.
  destruct (fold_engines engines seen ids H1 H2) as (G1 & G2 & G3).
  split; [exact G1|]. split; [|exact G3].
  intros x. rewrite G2, H3, elem_of_nil. tauto.
Qed.

(** *** Personas *)

(** [ApplyPersona] changes the prompt only for a persona [HasPersona]
    knows whose content is not empty, and then puts that content and a
    blank line before it; a persona file that is empty is known to
    [HasPersona] but leaves prompts as they are. *)
Theorem X_ApplyPersona (personas : gmap string string) (name prompt : string) :
  ApplyPersona personas name prompt =
    (if HasPersona personas name && negb (String.eqb (GetPersona personas name) "")
     then GetPersona personas name +:+ nl +:+ nl +:+ prompt else prompt) /\
  (GetPersona personas name <> "" -> HasPersona personas name = true) /\
  (HasPersona personas name = true <-> name <> "" /\ is_Some (personas !! name)).
Proof.
  unfold ApplyPersona, HasPersona, GetPersona.
  destruct (String.eqb_spec name "") as [->|Hn].
  - split; [reflexivity|]. split; [congruence|]. split; [discriminate | tauto].
  - destruct (personas !! name) as [c|] eqn:E.
    + split; [|split].
      * cbn [andb]. destruct (String.eqb c ""); reflexivity.
      * reflexivity.
      * split; [intros _; split; [exact Hn | eexists; reflexivity] | reflexivity].
    + split; [reflexivity|]. split; [congruence|].
      split; [discriminate|]. intros [_ Hs]. destruct Hs as [x Hx]. discriminate.
Qed.

(** *** Store keys *)

Lemma keyed_save (st : Store) (t : Task) : keyed st -> keyed (store_Save st t).
Proof.
  intros Hk k t' H. unfold store_Save in H.
  destruct (decide (k = ID t)) as [->|Hne].
  - rewrite lookup_insert_eq in H. now injection H as <-.
  - rewrite lookup_insert_ne in H by congruence. now apply Hk.
Qed.

Lemma keyed_delete (st : Store) (id : string) : keyed st -> keyed (delete id st).
Proof.
  intros Hk k t H. destruct (decide (k = id)) as [->|Hne].
  - rewrite lookup_delete_eq in H. discriminate.
  - rewrite lookup_delete_ne in H by congruence. now apply Hk.
Qed.

Lemma keyed_get (st : Store) (id : string) (t : Task) :
  keyed st -> store_Get st id = Ok t -> ID t = id /\ st !! id = Some t.
Proof.
  unfold store_Get. intros Hk H. destruct (st !! id) as [t'|] eqn:E; [|discriminate].
  injection H as <-. split; [now apply Hk | reflexivity].
Qed.

Lemma dom_save_existing (st : Store) (t t0 : Task) :
  st !! ID t = Some t0 -> dom (store_Save st t) = dom st.
Proof.
  intros H. unfold store_Save. rewrite dom_insert_L.
  apply (elem_of_dom_2 st) in H. set_solver.
Qed.

Lemma keyed_mark_cancelled (st : Store) (t : Task) (now : Z) :
  keyed st -> st !! ID t = Some t ->
  keyed (mark_cancelled_if_running st t now) /\
  dom (mark_cancelled_if_running st t now) = dom st.
Proof.
  intros Hk Ht. unfold mark_cancelled_if_running.
  destruct (TaskStatus_eqb (Status t) TaskStatusRunning); [|auto].
  split; [now apply keyed_save|]. now apply (dom_save_existing _ _ t).
Qed.

(** The operations of the store, [Spawn] and the orchestrator's task
    operations keep every task filed under its own id. [Cancel], [Pause]
    and [SetProgress] rewrite the entry they read and never add or drop
    an id; [Delete] and [Purge] drop exactly the requested id (when it is
    there; otherwise nothing). *)
Theorem X_store_keyed (st : Store) :
  keyed st ->
  (forall t, keyed (store_Save st t)) /\
  (forall id st', store_Delete st id = Ok st' -> keyed st' /\ dom st' = dom st ∖ {[id]}) /\
  (forall id s st', store_UpdateStatus st id s = Ok st' -> keyed st' /\ dom st' = dom st) /\
  (forall PD o req now newID files, keyed (Spawn PD o st req now newID files).1) /\
  (forall id mc now, keyed (orch_Cancel st id mc now).1 /\
                     dom (orch_Cancel st id mc now).1 = dom st) /\
  (forall id mp now, keyed (orch_Pause st id mp now).1 /\
                     dom (orch_Pause st id mp now).1 = dom st) /\
  (forall id pct desc now, keyed (SetProgress st id pct desc now).1 /\
                           dom (SetProgress st id pct desc now).1 = dom st) /\
  (forall id now, keyed (orch_Delete st id now).1 /\
                  dom (orch_Delete st id now).1 = dom st ∖ {[id]}) /\
  (forall fs id now, keyed (orch_Purge st fs id now).1.1 /\
                     dom (orch_Purge st fs id now).1.1 = dom st ∖ {[id]}).
Proof.
  intros Hk.
  (* deleting through [store_Delete] *)
  assert (Hdel : forall st0, keyed st0 -> forall id st', store_Delete st0 id = Ok st' ->
            keyed st' /\ dom st' = dom st0 ∖ {[id]}).
  { intros st0 Hk0 id st' H. unfold store_Delete in H.
    destruct (st0 !! id) eqn:E; [|discriminate]. injection H as <-.
    split; [now apply keyed_delete | apply dom_delete_L]. }
  (* a missing id is already outside the domain *)
  assert (Hmiss : forall id m, store_Get st id = Err m -> dom st = dom st ∖ {[id]}).
  { intros id m H. unfold store_Get in H. destruct (st !! id) eqn:E; [discriminate|].
    apply not_elem_of_dom in E. set_solver. }
  split; [intros t; now apply keyed_save|].
  split; [now apply Hdel|].
  split.
  { intros id s st' H. unfold store_UpdateStatus in H.
    destruct (st !! id) as [t|] eqn:E; [|discriminate]. injection H as <-.
    assert (Hid : ID (set_Status t s) = id) by (apply Hk in E; exact E).
    split.
    - rewrite <- Hid. now apply keyed_save.
    - rewrite dom_insert_L. apply (elem_of_dom_2 st) in E. set_solver. }
  split.
  { intros PD o req now newID files. unfold Spawn.
    destruct (if String.eqb (ReqTimeout req) "" then Ok 0 else _); [|exact Hk].
    apply keyed_save, Hk. }
  split.
  { intros id mc now. unfold orch_Cancel.
    destruct (store_Get st id) as [t|m] eqn:Eg; [|auto].
    destruct (keyed_get _ _ _ Hk Eg) as [Hid Ht].
    destruct (IsTerminal t); [auto|].
    destruct (if TaskStatus_eqb (Status t) TaskStatusRunning then mc else Ok tt); [|auto].
    split; [now apply keyed_save|]. apply (dom_save_existing _ _ t). cbn. congruence. }
  split.
  { intros id mp now. unfold orch_Pause.
    destruct (store_Get st id) as [t|m] eqn:Eg; [|auto].
    destruct (keyed_get _ _ _ Hk Eg) as [Hid Ht].
    destruct (TaskStatus_eqb (Status t) TaskStatusPaused); [auto|].
    destruct (IsTerminal t); [auto|].
    destruct (if TaskStatus_eqb (Status t) TaskStatusRunning then mp else Ok tt); [|auto].
    split; [now apply keyed_save|]. apply (dom_save_existing _ _ t). cbn. congruence. }
  split.
  { intros id pct desc now. unfold SetProgress.
    destruct (store_Get st id) as [t|m] eqn:Eg; [|auto].
    destruct (keyed_get _ _ _ Hk Eg) as [Hid Ht].
    split; [now apply keyed_save|]. apply (dom_save_existing _ _ t). cbn. congruence. }
  split.
  { intros id now. unfold orch_Delete.
    destruct (store_Get st id) as [t|m] eqn:Eg; [|split; [exact Hk | eapply Hmiss; eauto]].
    destruct (keyed_get _ _ _ Hk Eg) as [Hid Ht].
    destruct (keyed_mark_cancelled st t now Hk ltac:(congruence)) as [Hk1 Hd1].
    destruct (store_Delete (mark_cancelled_if_running st t now) id) as [st'|m] eqn:Ed.
    - destruct (Hdel _ Hk1 _ _ Ed) as [Hk2 Hd2]. cbn. rewrite Hd2, Hd1. now split.
    - exfalso. unfold store_Delete in Ed.
      destruct (mark_cancelled_if_running st t now !! id) eqn:E; [discriminate|].
      apply not_elem_of_dom in E. rewrite Hd1 in E. apply E.
      apply (elem_of_dom_2 st id t Ht). }
  { intros fs id now. unfold orch_Purge.
    destruct (store_Get st id) as [t|m] eqn:Eg.
    2:{ destruct (strings_Contains m "task not found"); cbn;
        (split; [exact Hk | eapply Hmiss; eauto]). }
    destruct (keyed_get _ _ _ Hk Eg) as [Hid Ht].
    destruct (keyed_mark_cancelled st t now Hk ltac:(congruence)) as [Hk1 Hd1].
    destruct (store_Delete (mark_cancelled_if_running st t now) id) as [st'|m] eqn:Ed.
    - destruct (Hdel _ Hk1 _ _ Ed) as [Hk2 Hd2]. cbn. rewrite Hd2, Hd1. now split.
    - exfalso. unfold store_Delete in Ed.
      destruct (mark_cancelled_if_running st t now !! id) eqn:E; [discriminate|].
      apply not_elem_of_dom in E. rewrite Hd1 in E. apply E.
      apply (elem_of_dom_2 st id t Ht). }
Qed.

Lemma X_store_keyed_witness :
  keyed sample_store /\ dom (orch_Delete sample_store "a" 9).1 = {[ "b" ]}.
Proof.
  assert (Hk : keyed sample_store).
  { intros k t H. unfold sample_store in H.
    destruct (decide (k = "a")) as [->|Ha].
    - rewrite lookup_insert_eq in H. now injection H as <-.
    - rewrite lookup_insert_ne in H by congruence.
      destruct (decide (k = "b")) as [->|Hb].
      + rewrite lookup_singleton_eq in H. now injection H as <-.
      + rewrite lookup_singleton_ne in H by congruence. discriminate. }
  split; [exact Hk|].
  destruct (X_store_keyed sample_store Hk) as (_ & _ & _ & _ & _ & _ & _ & Hd & _).
  destruct (Hd "a" 9) as [_ ->]. unfold sample_store.
  rewrite dom_insert_L, dom_singleton_L. set_solver.
Defined.

(** *** Non-ASCII white space *)

(** Instructions made of U+00A0 alone are blank for [Resume]. *)
Example Resume_nbsp_prompt_rejected :
  let P := sample_task "p" TaskStatusPaused [] in
  let st : Store := {[ "p" := P ]} in
  Resume sample_ParseDuration sample_Duration_String sample_orchestrator st "p"
    (sample_resume_options (String "194"%char (String "160"%char EmptyString))) 7
    "task-new" ∅
  = (st, Err "prompt is required").
Proof. vm_compute. reflexivity. Qed.

(** A status followed by U+00A0 is read as that status. *)
Example parseStatusQuery_nbsp :
  parseStatusQuery ["pending" +:+ String "194"%char (String "160"%char EmptyString)] =
    Ok [TaskStatusPending].
Proof. vm_compute. reflexivity. Qed.

(** A prompt of U+00A0 alone is blank: the TUI shows the id line. *)
Example stripTaskIDPrefix_nbsp :
  stripTaskIDPrefix ("You are the task_id: t1" +:+ nl +:+ nl +:+
                     String "194"%char (String "160"%char EmptyString)) =
    "You are the task_id: t1".
Proof. vm_compute. reflexivity. Qed.
